(** * Columnar key schema for CockroachDB-style engine keys

    A shallow embedding of [cockroachKeyWriter] and [cockroachKeySeeker]
    (package [colblk], file cockroach_test.go): the key writer that splits
    engine keys into four columns, and the key seeker that searches and
    re-materializes them from a finished block.

    Byte slices are lists of [Z] in the range [0, 256); Go's [int] values
    (row indices, lengths) are [Z]; fixed-width conversions are written out. *)

From Stdlib Require Import ZArith List Lia Bool.
Import ListNotations.
Local Open Scope Z_scope.

(** ** Go primitives used by the code *)

Definition byte := Z.
Definition Bytes := list byte.

(** [byte(x)], [uint32(x)] and [int32(x)] conversions. *)
Definition to_byte (z : Z) : byte := z mod 256.
Definition uint32 (z : Z) : Z := z mod 2 ^ 32.
Definition int32 (z : Z) : Z := (z + 2 ^ 31) mod 2 ^ 32 - 2 ^ 31.

(** [len(s)]. *)
Definition len {A : Type} (s : list A) : Z := Z.of_nat (length s).

(** [s[lo:hi]], [s[lo:]] and [s[i]] on byte slices. *)
Definition slice (s : Bytes) (lo hi : Z) : Bytes :=
  firstn (Z.to_nat (hi - lo)) (skipn (Z.to_nat lo) s).
Definition slice_from (s : Bytes) (lo : Z) : Bytes := skipn (Z.to_nat lo) s.
Definition index (s : Bytes) (i : Z) : byte := nth (Z.to_nat i) s 0.

Fixpoint bytes_eqb (a b : Bytes) : bool :=
  match a, b with
  | [], [] => true
  | x :: a', y :: b' => (x =? y) && bytes_eqb a' b'
  | _, _ => false
  end.

Module cmp.
(** [cmp.Compare] on ordered scalars. *)
Definition Compare (a b : Z) : Z :=
  if a <? b then -1 else if b <? a then 1 else 0.
End cmp.

Module bytes.
(** [bytes.Compare]: lexicographic order on byte slices. *)
Fixpoint Compare (a b : Bytes) : Z :=
  match a, b with
  | [], [] => 0
  | [], _ :: _ => -1
  | _ :: _, [] => 1
  | x :: a', y :: b' =>
      if x <? y then -1 else if y <? x then 1 else Compare a' b'
  end.
End bytes.

Module binary.
(** [binary.BigEndian.Uint64] and [Uint32]: the leading 8 (4) bytes, most
    significant first. *)
Definition be (n : nat) (b : Bytes) : Z :=
  fold_left (fun acc x => Z.lor (Z.shiftl acc 8) x) (firstn n b) 0.
Definition Uint64 (b : Bytes) : Z := be 8 b.
Definition Uint32 (b : Bytes) : Z := be 4 b.
End binary.

Module crbytes.
(** [crbytes.CommonPrefix]: length of the longest shared leading run. *)
Fixpoint CommonPrefix (a b : Bytes) : Z :=
  match a, b with
  | x :: a', y :: b' => if x =? y then 1 + CommonPrefix a' b' else 0
  | _, _ => 0
  end.
End crbytes.

(** ** Engine-key helpers (package [crdbtest]) *)

Module crdbtest.

(** Index of the first 0x00 byte (the length of the slice when absent). *)
Fixpoint sentinelIndex (key : Bytes) : Z :=
  match key with
  | [] => 0
  | b :: rest => if b =? 0 then 0 else 1 + sentinelIndex rest
  end.

(** Modelled from the spec: [crdbtest.Split] is not part of the sources at
    hand.  It returns the index of the 0x00 sentinel plus one, that is the
    length of the prefix region including the sentinel. *)
Definition Split (key : Bytes) : Z := sentinelIndex key + 1.

(** The two MVCC suffix-region lengths (payload plus trailing length byte). *)
Definition isMVCCLen (n : Z) : bool := (n =? 9) || (n =? 13).

(** Modelled from the spec: [crdbtest.DecodeEngineKey] is not part of the
    sources at hand.  It walks to the sentinel, reads the trailing length
    byte and classifies the suffix as MVCC (lengths 9 or 13) or untyped (any
    other non-zero length); the bare-prefix form yields an empty untyped
    suffix and zero timestamps.  Result: (prefix, untyped suffix, wall time,
    logical time). *)
Definition DecodeEngineKey (key : Bytes) : Bytes * Bytes * Z * Z :=
  let p := sentinelIndex key in
  let roachKey := slice key 0 p in
  let region := slice_from key (p + 1) in
  let payload := slice region 0 (len region - 1) in
  let trailer := index key (len key - 1) in
  if trailer =? 0 then (roachKey, [], 0, 0)
  else if trailer =? 9 then (roachKey, [], binary.Uint64 payload, 0)
  else if trailer =? 13 then
    (roachKey, [], binary.Uint64 payload, binary.Uint32 (slice_from payload 8))
  else (roachKey, payload, 0, 0).

(** Big-endian encodings of a 64-bit and a 32-bit value. *)
Definition putUint64 (w : Z) : Bytes :=
  map (fun s => to_byte (Z.shiftr w s)) [56; 48; 40; 32; 24; 16; 8; 0].
Definition putUint32 (w : Z) : Bytes :=
  map (fun s => to_byte (Z.shiftr w s)) [24; 16; 8; 0].

(** Modelled from the spec: [crdbtest.AppendTimestamp] is not part of the
    sources at hand.  The MVCC suffix is the 8-byte big-endian wall time,
    then the 4-byte big-endian logical counter and length byte 13; with a
    zero logical counter it is truncated to the wall time and length byte 9;
    with both fields zero the suffix region is empty. *)
Definition AppendTimestamp (dst : Bytes) (wall logical : Z) : Bytes :=
  if (wall =? 0) && (logical =? 0) then dst
  else if logical =? 0 then dst ++ putUint64 wall ++ [9]
  else dst ++ putUint64 wall ++ putUint32 logical ++ [13].

(** (wall, logical) of an MVCC suffix region of length 9 or 13. *)
Definition suffixTimestamp (s : Bytes) : Z * Z :=
  (binary.Uint64 s,
   if len s =? 13 then binary.Uint32 (slice_from s 8) else 0).

(** Modelled from the spec: [crdbtest.CompareSuffixes] is not part of the
    sources at hand.  An empty suffix region is the smallest; two MVCC
    suffixes are ordered descending on (wall time, logical counter);
    untyped suffixes are ordered ascending lexicographically on their
    payload.  The spec leaves the order between an MVCC and an untyped
    suffix open; here they are compared as untyped ones. *)
Definition CompareSuffixes (a b : Bytes) : Z :=
  if (len a =? 0) || (len b =? 0) then cmp.Compare (len a) (len b)
  else if isMVCCLen (len a) && isMVCCLen (len b) then
    let '(wa, la) := suffixTimestamp a in
    let '(wb, lb) := suffixTimestamp b in
    if wa =? wb then cmp.Compare lb la else cmp.Compare wb wa
  else bytes.Compare (slice a 0 (len a - 1)) (slice b 0 (len b - 1)).

(** Modelled from the spec: [crdbtest.Compare], the engine comparator, is
    not part of the sources at hand.  Keys are ordered first
    lexicographically on the prefix and, for equal prefixes, by
    [CompareSuffixes] on the suffix regions. *)
Definition Compare (a b : Bytes) : Z :=
  let sa := Split a in
  let sb := Split b in
  let c := bytes.Compare (slice a 0 (sa - 1)) (slice b 0 (sb - 1)) in
  if c =? 0 then CompareSuffixes (slice_from a sa) (slice_from b sb) else c.

End crdbtest.

(** ** Column builders (write side of the column framework) *)

(** The column builders belong to the column framework, which is not part of
    the sources at hand; each of their operations is modelled from the
    contract the spec gives for it. *)

Module PrefixBytesBuilder.
Definition t := list Bytes.
Definition Init : t := [].
(** Modelled from the spec: [PrefixBytesBuilder.Rows], the number of byte
    strings appended so far. *)
Definition Rows (b : t) : Z := len b.
(** Modelled from the spec: [PrefixBytesBuilder.UnsafeGet], the byte string
    of a row, without copying. *)
Definition UnsafeGet (b : t) (i : Z) : Bytes := nth (Z.to_nat i) b [].
(** Modelled from the spec: [PrefixBytesBuilder.Put] appends a byte string
    with a shared-prefix hint; the hint only steers the compression. *)
Definition Put (b : t) (key : Bytes) (sharedHint : Z) : t := b ++ [key].
End PrefixBytesBuilder.

Module UintBuilder.
Definition t := list Z.
Definition Init : t := [].
(** Modelled from the spec: [UintBuilder.Get]; a row that was never set reads
    as the implicit zero. *)
Definition Get (b : t) (row : Z) : Z := nth (Z.to_nat row) b 0.
Fixpoint setNth (b : t) (n : nat) (v : Z) : t :=
  match n, b with
  | O, [] => [v]
  | O, _ :: rest => v :: rest
  | S n', [] => 0 :: setNth [] n' v
  | S n', x :: rest => x :: setNth rest n' v
  end.
(** Modelled from the spec: [UintBuilder.Set] sets the value at a row; rows
    skipped on the way keep the zero default. *)
Definition Set_ (b : t) (row : Z) (v : Z) : t := setNth b (Z.to_nat row) v.
End UintBuilder.

Module RawBytesBuilder.
Definition t := list Bytes.
Definition Init : t := [].
(** Modelled from the spec: [RawBytesBuilder.UnsafeGet], the byte string of a
    row, without copying. *)
Definition UnsafeGet (b : t) (i : Z) : Bytes := nth (Z.to_nat i) b [].
(** Modelled from the spec: [RawBytesBuilder.Put] appends a byte string. *)
Definition Put (b : t) (s : Bytes) : t := b ++ [s].
End RawBytesBuilder.

(** ** The key writer *)

Record KeyComparison := {
  PrefixLen : Z;
  CommonPrefixLen : Z;
  UserKeyComparison : Z
}.

Record cockroachKeyWriter := {
  kw_roachKeys : PrefixBytesBuilder.t;
  kw_wallTimes : UintBuilder.t;
  kw_logicalTimes : UintBuilder.t;
  kw_untypedVersions : RawBytesBuilder.t;
  kw_prevSuffix : Bytes
}.

(** [cockroachKeySchema.NewKeyWriter]. *)
Definition NewKeyWriter : cockroachKeyWriter :=
  {| kw_roachKeys := PrefixBytesBuilder.Init;
     kw_wallTimes := UintBuilder.Init;
     kw_logicalTimes := UintBuilder.Init;
     kw_untypedVersions := RawBytesBuilder.Init;
     kw_prevSuffix := [] |}.

Definition ComparePrev (kw : cockroachKeyWriter) (key : Bytes) : KeyComparison :=
  let prefixLen := int32 (crdbtest.Split key) in
  if PrefixBytesBuilder.Rows (kw_roachKeys kw) =? 0 then
    {| PrefixLen := prefixLen; CommonPrefixLen := 0; UserKeyComparison := 1 |}
  else
    let lp := PrefixBytesBuilder.UnsafeGet (kw_roachKeys kw)
                (PrefixBytesBuilder.Rows (kw_roachKeys kw) - 1) in
    let common :=
      int32 (crbytes.CommonPrefix lp (slice key 0 (int32 (prefixLen - 1)))) in
    if common =? int32 (prefixLen - 1) then
      {| PrefixLen := prefixLen;
         CommonPrefixLen := prefixLen;
         UserKeyComparison :=
           int32 (crdbtest.CompareSuffixes (slice_from key prefixLen)
                    (kw_prevSuffix kw)) |}
    else if len lp =? common then
      {| PrefixLen := prefixLen; CommonPrefixLen := common;
         UserKeyComparison := 1 |}
    else
      {| PrefixLen := prefixLen; CommonPrefixLen := common;
         UserKeyComparison :=
           int32 (cmp.Compare (index key common) (index lp common)) |}.

Definition WriteKey (kw : cockroachKeyWriter) (row : Z) (key : Bytes)
    (keyPrefixLen keyPrefixLenSharedWithPrev : Z) : cockroachKeyWriter :=
  let '(roachKey, untypedVersion, wallTime, logicalTime) :=
    crdbtest.DecodeEngineKey key in
  {| kw_prevSuffix := slice_from key keyPrefixLen;
     kw_roachKeys :=
       PrefixBytesBuilder.Put (kw_roachKeys kw) roachKey
         (Z.min keyPrefixLenSharedWithPrev (len roachKey));
     kw_wallTimes := UintBuilder.Set_ (kw_wallTimes kw) row wallTime;
     kw_logicalTimes :=
       if 0 <? logicalTime
       then UintBuilder.Set_ (kw_logicalTimes kw) row logicalTime
       else kw_logicalTimes kw;
     kw_untypedVersions :=
       RawBytesBuilder.Put (kw_untypedVersions kw) untypedVersion |}.

Definition MaterializeKey (kw : cockroachKeyWriter) (dst : Bytes) (i : Z) : Bytes :=
  let dst := dst ++ PrefixBytesBuilder.UnsafeGet (kw_roachKeys kw) i in
  let dst := dst ++ [0] in
  let untypedVersion := RawBytesBuilder.UnsafeGet (kw_untypedVersions kw) i in
  if 0 <? len untypedVersion then
    (dst ++ untypedVersion) ++ [to_byte (len untypedVersion)]
  else
    crdbtest.AppendTimestamp dst
      (UintBuilder.Get (kw_wallTimes kw) i)
      (uint32 (UintBuilder.Get (kw_logicalTimes kw) i)).

(** Modelled from the spec: the block writer that drives the key writer is
    not part of the sources at hand.  For each key it asks [ComparePrev],
    then hands the key to [WriteKey] at the next row index together with the
    reported prefix lengths. *)
Definition addKey (kw : cockroachKeyWriter) (key : Bytes) : cockroachKeyWriter :=
  let kcmp := ComparePrev kw key in
  WriteKey kw (PrefixBytesBuilder.Rows (kw_roachKeys kw)) key
    (PrefixLen kcmp) (CommonPrefixLen kcmp).

Definition writeKeys (keys : list Bytes) : cockroachKeyWriter :=
  fold_left addKey keys NewKeyWriter.

(** ** The finished block as the seeker reads it *)

(** Modelled from the spec: the prefix-changed bit set of a block; bit [i] is
    set iff row [i]'s prefix differs from row [i-1]'s, and bit 0 is set. *)
Fixpoint prefixChangedBits (prev : option Bytes) (rows : list Bytes) : list bool :=
  match rows with
  | [] => []
  | r :: rest =>
      match prev with
      | None => true
      | Some p => negb (bytes_eqb p r)
      end :: prefixChangedBits (Some r) rest
  end.

Module Bitmap.
Fixpoint seekFrom (bits : list bool) (pos i : Z) : Z :=
  match bits with
  | [] => pos
  | b :: rest => if b && (i <=? pos) then pos else seekFrom rest (pos + 1) i
  end.
(** Modelled from the spec: [SeekSetBitGE(i)] of the column framework
    returns the smallest [j >= i] whose bit is set, or the number of rows
    if there is none. *)
Definition SeekSetBitGE (bits : list bool) (i : Z) : Z := seekFrom bits 0 i.
End Bitmap.

(** The read-side column views belong to the column framework as well. *)

Module PrefixBytes.
Definition t := list Bytes.
(** Modelled from the spec: [UnsafeFirstSlice], the first row's prefix. *)
Definition UnsafeFirstSlice (p : t) : Bytes := nth 0 p [].
(** Modelled from the spec: [At(row)], the prefix of a row. *)
Definition At (p : t) (i : Z) : Bytes := nth (Z.to_nat i) p [].
Fixpoint searchFrom (rows : t) (pos : Z) (k : Bytes) : Z * bool :=
  match rows with
  | [] => (pos, false)
  | r :: rest =>
      let c := bytes.Compare r k in
      if c <? 0 then searchFrom rest (pos + 1) k else (pos, c =? 0)
  end.
(** Modelled from the spec: [Search(query)] of the column framework, a
    lexicographic search over the sorted prefix column; it returns the
    first row whose prefix is at least the query and whether that prefix
    equals the query. *)
Definition Search (p : t) (k : Bytes) : Z * bool := searchFrom p 0 k.
Fixpoint commonOf (acc : Bytes) (rows : t) : Bytes :=
  match rows with
  | [] => acc
  | r :: rest =>
      commonOf (firstn (Z.to_nat (crbytes.CommonPrefix acc r)) acc) rest
  end.
(** Modelled from the spec: the shared-prefix portion common to all rows. *)
Definition SharedPrefix (p : t) : Bytes :=
  match p with
  | [] => []
  | r :: rest => commonOf r rest
  end.
End PrefixBytes.

Module UnsafeUints.
Definition t := list Z.
(** Modelled from the spec: [At(row)], the integer stored for a row. *)
Definition At (u : t) (i : Z) : Z := nth (Z.to_nat i) u 0.
End UnsafeUints.

Module RawBytes.
Definition t := list Bytes.
(** Modelled from the spec: [At(row)], the byte string stored for a row. *)
Definition At (r : t) (i : Z) : Bytes := nth (Z.to_nat i) r [].
End RawBytes.

Record DataBlockReader := {
  r_roachKeys : PrefixBytes.t;
  r_wallTimes : UnsafeUints.t;
  r_logicalTimes : UnsafeUints.t;
  r_untypedVersions : RawBytes.t;
  prefixChanged : list bool
}.

(** Pads an integer column with its implicit zeros up to the row count. *)
Definition padUints (rows : nat) (u : list Z) : list Z :=
  u ++ repeat 0 (rows - length u).

(** Modelled from the spec: finishing a block serializes the four columns in
    schema order together with the prefix-changed bit set; the reader hands
    back views with the same rows. *)
Definition finishBlock (kw : cockroachKeyWriter) : DataBlockReader :=
  let rows := length (kw_roachKeys kw) in
  {| r_roachKeys := kw_roachKeys kw;
     r_wallTimes := padUints rows (kw_wallTimes kw);
     r_logicalTimes := padUints rows (kw_logicalTimes kw);
     r_untypedVersions := kw_untypedVersions kw;
     prefixChanged := prefixChangedBits None (kw_roachKeys kw) |}.

(** ** The key seeker *)

Record cockroachKeySeeker := {
  ks_reader : option DataBlockReader;   (* [*DataBlockReader]; [None] is nil *)
  ks_roachKeys : PrefixBytes.t;
  ks_mvccWallTimes : UnsafeUints.t;
  ks_mvccLogical : UnsafeUints.t;
  ks_untypedVersions : RawBytes.t;
  ks_sharedPrefix : Bytes
}.

(** The zero value [cockroachKeySeeker{}], also what [NewKeySeeker] returns. *)
Definition zeroSeeker : cockroachKeySeeker :=
  {| ks_reader := None;
     ks_roachKeys := [];
     ks_mvccWallTimes := [];
     ks_mvccLogical := [];
     ks_untypedVersions := [];
     ks_sharedPrefix := [] |}.

Definition Init (ks : cockroachKeySeeker) (r : DataBlockReader) : cockroachKeySeeker :=
  {| ks_reader := Some r;
     ks_roachKeys := r_roachKeys r;
     ks_mvccWallTimes := r_wallTimes r;
     ks_mvccLogical := r_logicalTimes r;
     ks_untypedVersions := r_untypedVersions r;
     ks_sharedPrefix := PrefixBytes.SharedPrefix (r_roachKeys r) |}.

(** [IsLowerBound]; [invariantsEnabled] stands for the build-time constant
    [invariants.Enabled], and [None] for the panic it guards. *)
Definition IsLowerBound (invariantsEnabled : bool) (ks : cockroachKeySeeker)
    (k syntheticSuffix : Bytes) : option bool :=
  let '(roachKey, untypedVersion, wallTime, logicalTime) :=
    crdbtest.DecodeEngineKey k in
  let v := crdbtest.Compare (PrefixBytes.UnsafeFirstSlice (ks_roachKeys ks)) roachKey in
  if negb (v =? 0) then Some (0 <? v)
  else if 0 <? len syntheticSuffix then
    Some (0 <=? crdbtest.Compare syntheticSuffix (slice_from k (len roachKey + 1)))
  else if 0 <? len untypedVersion then
    if invariantsEnabled && negb (UnsafeUints.At (ks_mvccWallTimes ks) 0 =? 0)
    then None
    else Some (0 <=? crdbtest.Compare (RawBytes.At (ks_untypedVersions ks) 0)
                       untypedVersion)
  else
    let v := cmp.Compare (UnsafeUints.At (ks_mvccWallTimes ks) 0) wallTime in
    if negb (v =? 0) then Some (0 <? v)
    else Some (0 <=? cmp.Compare (uint32 (UnsafeUints.At (ks_mvccLogical ks) 0))
                       logicalTime).

(** The loop shared by both searches of [seekGEOnSuffix]:
    [for l < u { h := int(uint(l+u) >> 1); if f(h) { u = h } else { l = h + 1 } }].
    The fuel bounds the number of iterations; [u - l] of them always suffice
    (see [searchLoop_more_fuel]). *)
Fixpoint searchLoop (fuel : nat) (f : Z -> bool) (l u : Z) : Z :=
  match fuel with
  | O => l
  | S fuel' =>
      if l <? u then
        let h := Z.shiftr ((l + u) mod 2 ^ 64) 1 in
        if f h then searchLoop fuel' f l h else searchLoop fuel' f (h + 1) u
      else l
  end.

Definition search (f : Z -> bool) (l u : Z) : Z :=
  searchLoop (Z.to_nat (u - l)) f l u.

(** The two loop conditions of [seekGEOnSuffix]. *)
Definition untypedGE (ks : cockroachKeySeeker) (seekSuffix : Bytes) (h : Z) : bool :=
  0 <=? bytes.Compare (RawBytes.At (ks_untypedVersions ks) h) seekSuffix.

Definition mvccGE (ks : cockroachKeySeeker) (seekWallTime seekLogicalTime : Z)
    (h : Z) : bool :=
  let hWallTime := UnsafeUints.At (ks_mvccWallTimes ks) h in
  (hWallTime <? seekWallTime)
  || ((hWallTime =? seekWallTime)
      && (uint32 (UnsafeUints.At (ks_mvccLogical ks) h) <=? seekLogicalTime)).

Definition withWall : Z := 9.
Definition withLogical : Z := withWall + 4.
Definition withSynthetic : Z := withLogical + 1.

(** [seekGEOnSuffix]; [None] is the nil dereference of [ks.reader] on a seeker
    that is not bound to a block. *)
Definition seekGEOnSuffix (ks : cockroachKeySeeker) (index : Z)
    (seekSuffix : Bytes) : option Z :=
  let n := len seekSuffix in
  if n =? 0 then Some index
  else
    match ks_reader ks with
    | None => None
    | Some r =>
        let u := Bitmap.SeekSetBitGE (prefixChanged r) (index + 1) in
        if (n =? withLogical) || (n =? withSynthetic) then
          Some (search (mvccGE ks (binary.Uint64 seekSuffix)
                          (binary.Uint32 (slice_from seekSuffix 8))) index u)
        else if n =? withWall then
          Some (search (mvccGE ks (binary.Uint64 seekSuffix) 0) index u)
        else
          Some (search (untypedGE ks seekSuffix) index u)
    end.

Definition SeekGE (ks : cockroachKeySeeker) (key : Bytes) (boundRow : Z)
    (searchDir : Z) : option (Z * bool) :=
  let si := crdbtest.Split key in
  let '(row, eq) := PrefixBytes.Search (ks_roachKeys ks) (slice key 0 (si - 1)) in
  if eq then
    match seekGEOnSuffix ks row (slice_from key si) with
    | Some r => Some (r, true)
    | None => None
    end
  else Some (row, false).

(** Seekers live behind pointers: the store maps an address to the seeker it
    holds, and [cockroachKeySeekerPool] is the list of pooled addresses. *)
Record SeekerStore := {
  cells : nat -> option cockroachKeySeeker;
  pool : list nat
}.

(** [Release]: [*ks = cockroachKeySeeker{}] followed by
    [cockroachKeySeekerPool.Put(ks)]. *)
Definition Release (ks : nat) (st : SeekerStore) : SeekerStore :=
  {| cells := fun q => if Nat.eqb q ks then Some zeroSeeker else cells st q;
     pool := ks :: pool st |}.

(** A seeker bound to the block built from [keys]. *)
Definition seekerOf (keys : list Bytes) : cockroachKeySeeker :=
  Init zeroSeeker (finishBlock (writeKeys keys)).

(** ** Materialization into the iterator's buffer

    [MaterializeUserKey] writes through raw pointers into the array behind
    [ki.buf].  The memory is modelled as that array (its length is the
    capacity of [ki.buf]) together with the log of stores that landed outside
    of it; a slice expression beyond the capacity panics. *)

Record PrefixBytesIter := {
  backing : Bytes;     (* the array behind [ki.buf]; [cap(ki.buf)] is its length *)
  buflen : Z;          (* [len(ki.buf)] *)
  cur : Z              (* the row the iterator is positioned at *)
}.

Record Mem := {
  ki : PrefixBytesIter;
  stray : list (Z * byte)  (* stores outside the array: offset and value *)
}.

Inductive Outcome (A : Type) : Type :=
| Done (a : A)
| Panic.
Arguments Done {A} a.
Arguments Panic {A}.

Definition M (A : Type) : Type := Mem -> Outcome A * Mem.

Definition ret {A} (a : A) : M A := fun m => (Done a, m).
Definition bind {A B} (c : M A) (k : A -> M B) : M B :=
  fun m => match c m with
           | (Done a, m') => k a m'
           | (Panic, m') => (Panic, m')
           end.

Notation "x <- c ;; k" := (bind c (fun x => k))
  (at level 61, c at next level, right associativity).
Notation "c ;;; k" := (bind c (fun _ => k))
  (at level 61, right associativity).

Definition capacity (m : Mem) : Z := len (backing (ki m)).

Fixpoint setByte (s : Bytes) (n : nat) (b : byte) : Bytes :=
  match s, n with
  | [], _ => []
  | _ :: rest, O => b :: rest
  | x :: rest, S n' => x :: setByte rest n' b
  end.

(** A store of byte [b] through a raw pointer at offset [off] from the start
    of the array; no bounds check takes place. *)
Definition storeMem (off : Z) (b : byte) (m : Mem) : Mem :=
  if (0 <=? off) && (off <? capacity m) then
    {| ki := {| backing := setByte (backing (ki m)) (Z.to_nat off) b;
                buflen := buflen (ki m); cur := cur (ki m) |};
       stray := stray m |}
  else {| ki := ki m; stray := stray m ++ [(off, b)] |}.

Definition store (off : Z) (b : byte) : M unit :=
  fun m => (Done tt, storeMem off b m).

(** [memmove(base + off, src, len(src))]. *)
Fixpoint memmove (off : Z) (src : Bytes) : M unit :=
  match src with
  | [] => ret tt
  | b :: rest => store off b ;;; memmove (off + 1) rest
  end.

(** [ki.buf[:n]]: the bounds check of a slice expression against the
    capacity; the result is the length of the new slice header. *)
Definition sliceTo (n : Z) : M Z := fun m =>
  if (0 <=? n) && (n <=? capacity m) then (Done n, m) else (Panic, m).

(** [res[i] = b] on a slice [res] of length [n]: a bounds-checked store. *)
Definition storeChecked (n i : Z) (b : byte) : M unit := fun m =>
  if (0 <=? i) && (i <? n) then store i b m else (Panic, m).

Definition getLen : M Z := fun m => (Done (buflen (ki m)), m).

(** The bytes seen through the returned slice of length [n]. *)
Definition contents (n : Z) : M Bytes := fun m =>
  (Done (firstn (Z.to_nat n) (backing (ki m))), m).

(** Modelled from the spec: [SetAt] and [SetNext] of the column framework
    position the iterator on a row (absolutely, or one step further) and
    leave that row's prefix in [ki.buf]. *)
Definition loadPrefix (p : PrefixBytes.t) (row : Z) : M unit := fun m =>
  let prefix := PrefixBytes.At p row in
  (Done tt,
   {| ki := {| backing := firstn (length (backing (ki m))) prefix
                          ++ skipn (length prefix) (backing (ki m));
               buflen := len prefix; cur := row |};
      stray := stray m |}).
Definition SetAt (p : PrefixBytes.t) (row : Z) : M unit := loadPrefix p row.
Definition SetNext (p : PrefixBytes.t) : M unit :=
  fun m => loadPrefix p (cur (ki m) + 1) m.

Definition MaterializeUserKey (ks : cockroachKeySeeker) (prevRow row : Z) : M Bytes :=
  (if (prevRow + 1 =? row) && (0 <=? prevRow)
   then SetNext (ks_roachKeys ks)
   else SetAt (ks_roachKeys ks) row) ;;;
  roachKeyLen <- getLen ;;
  let ptr := roachKeyLen in
  let mvccWall := UnsafeUints.At (ks_mvccWallTimes ks) row in
  let mvccLogical := uint32 (UnsafeUints.At (ks_mvccLogical ks) row) in
  if (mvccWall =? 0) && (mvccLogical =? 0) then
    let untypedVersion := RawBytes.At (ks_untypedVersions ks) row in
    if len untypedVersion =? 0 then
      res <- sliceTo (roachKeyLen + 1) ;;
      storeChecked res roachKeyLen 0 ;;;
      contents res
    else
      res <- sliceTo (roachKeyLen + 1 + len untypedVersion) ;;
      store ptr 0 ;;;
      memmove (ptr + 1) untypedVersion ;;;
      contents res
  else
    store ptr 0 ;;;
    store (ptr + 1) (to_byte (Z.shiftr mvccWall 56)) ;;;
    store (ptr + 2) (to_byte (Z.shiftr mvccWall 48)) ;;;
    store (ptr + 3) (to_byte (Z.shiftr mvccWall 40)) ;;;
    store (ptr + 4) (to_byte (Z.shiftr mvccWall 32)) ;;;
    store (ptr + 5) (to_byte (Z.shiftr mvccWall 24)) ;;;
    store (ptr + 6) (to_byte (Z.shiftr mvccWall 16)) ;;;
    store (ptr + 7) (to_byte (Z.shiftr mvccWall 8)) ;;;
    store (ptr + 8) (to_byte mvccWall) ;;;
    let ptr := ptr + 9 in
    if mvccLogical =? 0 then
      store ptr 9 ;;;
      n <- getLen ;;
      res <- sliceTo (n + 10) ;;
      contents res
    else
      store ptr (to_byte (Z.shiftr mvccWall 24)) ;;;
      store (ptr + 1) (to_byte (Z.shiftr mvccWall 16)) ;;;
      store (ptr + 2) (to_byte (Z.shiftr mvccWall 8)) ;;;
      store (ptr + 3) (to_byte mvccWall) ;;;
      store (ptr + 4) 13 ;;;
      n <- getLen ;;
      res <- sliceTo (n + 14) ;;
      contents res.

Definition MaterializeUserKeyWithSyntheticSuffix (ks : cockroachKeySeeker)
    (suffix : Bytes) (prevRow row : Z) : M Bytes :=
  (if (prevRow + 1 =? row) && (0 <=? prevRow)
   then SetNext (ks_roachKeys ks)
   else SetAt (ks_roachKeys ks) row) ;;;
  n <- getLen ;;
  res <- sliceTo (n + 1 + len suffix) ;;
  let ptr := n in
  store ptr 0 ;;;
  memmove (ptr + 1) suffix ;;;
  contents res.

(** A fresh iterator buffer of capacity [c], positioned before the first row. *)
Definition freshMem (c : nat) : Mem :=
  {| ki := {| backing := repeat 0 c; buflen := 0; cur := -1 |}; stray := [] |}.

(** ** More of the key writer *)

(** [Reset]: the four column builders are reset (modelled from the spec: a
    reset builder is empty again); the buffer of the previous suffix keeps
    its content. *)
Definition Reset (kw : cockroachKeyWriter) : cockroachKeyWriter :=
  {| kw_roachKeys := PrefixBytesBuilder.Init;
     kw_wallTimes := UintBuilder.Init;
     kw_logicalTimes := UintBuilder.Init;
     kw_untypedVersions := RawBytesBuilder.Init;
     kw_prevSuffix := kw_prevSuffix kw |}.

(** ** Vocabulary of the statements *)

(** The engine key with the given prefix and MVCC timestamp. *)
Definition mvccKey (prefix : Bytes) (wall logical : Z) : Bytes :=
  crdbtest.AppendTimestamp (prefix ++ [0]) wall logical.


(** The prefix of a key without the sentinel, [key[:Split(key)-1]]. *)
Definition prefixOf (key : Bytes) : Bytes :=
  slice key 0 (crdbtest.Split key - 1).

(** [row] is where condition [f] turns from false to true within [[l, u]]. *)
Definition boundary (f : Z -> bool) (l u row : Z) : Prop :=
  l <= row <= u
  /\ (row < u -> f row = true)
  /\ (l < row -> f (row - 1) = false).

(** The first step of both materialization functions: step to the next row
    when [row] follows [prevRow], else seek to [row]. *)
Definition position (ks : cockroachKeySeeker) (prevRow row : Z) : M unit :=
  if (prevRow + 1 =? row) && (0 <=? prevRow)
  then SetNext (ks_roachKeys ks)
  else SetAt (ks_roachKeys ks) row.

(** The memory as the positioning step leaves it: the prefix is in [ki.buf]
    and nothing has been written past it. *)
Definition positioned (ks : cockroachKeySeeker) (prevRow row : Z) (m : Mem) : Mem :=
  snd (position ks prevRow row m).

(** Bytes the MVCC path writes after the prefix: 10 without a logical
    counter, 14 with one. *)
Definition mvccSuffixLen (ks : cockroachKeySeeker) (row : Z) : Z :=
  if uint32 (UnsafeUints.At (ks_mvccLogical ks) row) =? 0 then 10 else 14.

(** The rows [[lo, hi)] hold MVCC timestamps newest first: each row's
    (wall time, logical counter) is at most that of the rows before it. *)
Definition newestFirst (ks : cockroachKeySeeker) (lo hi : Z) : Prop :=
  forall i j, lo <= i -> i <= j -> j < hi ->
    mvccGE ks (UnsafeUints.At (ks_mvccWallTimes ks) i)
      (uint32 (UnsafeUints.At (ks_mvccLogical ks) i)) j = true.

(** The iterator state a caller of the materialization functions provides:
    when it asks for the row after [prevRow], the iterator stands on
    [prevRow]. *)
Definition iterReady (m : Mem) (prevRow row : Z) : Prop :=
  prevRow + 1 = row -> 0 <= prevRow -> cur (ki m) = prevRow.

(** The memory after a call that returned [out] from memory [m]: the array
    starts with [out] and keeps the bytes it had behind, and no store has
    landed outside the array. *)
Definition wroteOnly (m m' : Mem) (out : Bytes) : Prop :=
  backing (ki m') = out ++ skipn (length out) (backing (ki m))
  /\ stray m' = stray m.

(** The rows [[lo, hi)] hold untyped versions in ascending lexicographic
    order. *)
Definition ascendingUntyped (ks : cockroachKeySeeker) (lo hi : Z) : Prop :=
  forall i j, lo <= i -> i <= j -> j < hi ->
    0 <= bytes.Compare (RawBytes.At (ks_untypedVersions ks) j)
           (RawBytes.At (ks_untypedVersions ks) i).



(** Timestamp (w1, l1) is at most timestamp (w2, l2). *)
Definition tsLe (w1 l1 w2 l2 : Z) : Prop :=
  w1 < w2 \/ (w1 = w2 /\ l1 <= l2).

(** The prefix, wall time and logical counter of an engine key without
    untyped suffix are in range: no 0x00 in the prefix, a 64-bit wall time
    and a 32-bit logical counter. *)
Definition validMVCC (k : Bytes * Z * Z) : Prop :=
  let '(p, w, l) := k in
  Forall (fun b => b <> 0) p /\ 0 <= w < 2 ^ 64 /\ 0 <= l < 2 ^ 32.

(** The engine key of a (prefix, wall time, logical counter) triple. *)
Definition keyOf (k : Bytes * Z * Z) : Bytes :=
  let '(p, w, l) := k in mvccKey p w l.

(** The columns of a writer are aligned: one untyped version per row, and
    no logical counter set beyond the rows written. *)
Definition rowsAligned (kw : cockroachKeyWriter) : Prop :=
  length (kw_untypedVersions kw) = length (kw_roachKeys kw)
  /\ (length (kw_logicalTimes kw) <= length (kw_roachKeys kw))%nat.

(** ** Keys, blocks and seekers used as concrete inputs *)

Definition kw_abc : cockroachKeyWriter := writeKeys [[97; 98; 99; 0]].

Definition key_ab : Bytes := [97; 98; 0].

Definition key_abc : Bytes := [97; 98; 99; 0].

Definition key_abd : Bytes := [97; 98; 100; 0].

Definition key_k200 : Bytes := mvccKey [107] 200 0.

Definition ks_k200 : cockroachKeySeeker := seekerOf [key_k200].

(** The suffix region of wall time 300 carrying the extra synthetic byte:
    13 payload bytes and the length byte 14. *)
Definition suffix14 : Bytes := [0; 0; 0; 0; 0; 0; 1; 44; 0; 0; 0; 0; 0; 14].

Definition key_kbare : Bytes := [107; 0].

Definition key_k100 : Bytes := mvccKey [107] 100 0.

Definition key_k175 : Bytes := mvccKey [107] 175 0.

(** A store with a seeker bound to a block at address 0 and another one at
    address 1. *)
Definition store2 : SeekerStore :=
  {| cells := fun q => match q with
                       | O => Some ks_k200
                       | S O => Some (seekerOf [key_k100])
                       | _ => None
                       end;
     pool := [] |}.

Definition key_p_10_5 : Bytes := mvccKey [112] 10 5.

Definition wall_0102030405060708 : Z := 72623859790382856.

Definition key_q : Bytes := mvccKey [113] wall_0102030405060708 7.

Definition key_u : Bytes := [117; 0; 118; 88; 3].

Definition key_u_a : Bytes := [117; 0; 97; 97; 3].

Definition key_u_c : Bytes := [117; 0; 99; 99; 3].

Definition ks_u2 : cockroachKeySeeker := seekerOf [key_u_a; key_u_c].

Definition key_k150 : Bytes := mvccKey [107] 150 0.

Definition ks_k3 : cockroachKeySeeker :=
  seekerOf [key_k200; key_k150; key_k100].

Definition specs3 : list (Bytes * Z * Z) :=
  [([107], 200, 0); ([107], 100, 5); ([108], 0, 0)].

(** * Properties *)

(** ** Conversions and byte-slice helpers *)

Lemma int32_small (z : Z) : - 2 ^ 31 <= z < 2 ^ 31 -> int32 z = z.
Proof.
  unfold int32.
  change (2 ^ 31) with 2147483648. change (2 ^ 32) with 4294967296.
  intros H. rewrite Z.mod_small by lia. lia.
Qed.

Lemma cmp_Compare_range (a b : Z) :
  cmp.Compare a b = -1 \/ cmp.Compare a b = 0 \/ cmp.Compare a b = 1.
Proof.
  unfold cmp.Compare.
  destruct (a <? b); [now left|].
  destruct (b <? a); [now right; right|now right; left].
Qed.

Lemma bytes_Compare_range (a : Bytes) : forall b,
  bytes.Compare a b = -1 \/ bytes.Compare a b = 0 \/ bytes.Compare a b = 1.
Proof.
  induction a as [|x a IH]; intros [|y b]; simpl; auto.
  destruct (x <? y); auto.
  destruct (y <? x); auto.
Qed.

Lemma CompareSuffixes_range (a b : Bytes) :
  crdbtest.CompareSuffixes a b = -1 \/ crdbtest.CompareSuffixes a b = 0
  \/ crdbtest.CompareSuffixes a b = 1.
Proof.
  unfold crdbtest.CompareSuffixes.
  destruct ((len a =? 0) || (len b =? 0)); [apply cmp_Compare_range|].
  destruct (crdbtest.isMVCCLen (len a) && crdbtest.isMVCCLen (len b)).
  - destruct (crdbtest.suffixTimestamp a) as [wa la].
    destruct (crdbtest.suffixTimestamp b) as [wb lb].
    destruct (wa =? wb); apply cmp_Compare_range.
  - apply bytes_Compare_range.
Qed.

Lemma int32_sign (z : Z) : z = -1 \/ z = 0 \/ z = 1 -> int32 z = z.
Proof.
  intros H. apply int32_small.
  change (2 ^ 31) with 2147483648. lia.
Qed.

Lemma sentinelIndex_bounds (key : Bytes) :
  0 <= crdbtest.sentinelIndex key <= len key.
Proof.
  unfold len.
  induction key as [|b key IH]; cbn [crdbtest.sentinelIndex length]; [lia|].
  rewrite Nat2Z.inj_succ. destruct (b =? 0); lia.
Qed.

Lemma len_firstn (s : Bytes) (n : Z) : 0 <= n <= len s -> len (firstn (Z.to_nat n) s) = n.
Proof.
  unfold len. intros H. rewrite length_firstn. lia.
Qed.

Lemma slice_0_len (key : Bytes) (n : Z) :
  0 <= n <= len key -> len (slice key 0 n) = n.
Proof.
  intros H. unfold slice. simpl. rewrite Z.sub_0_r. now apply len_firstn.
Qed.

Lemma CommonPrefix_app (p : Bytes) : forall tail,
  crbytes.CommonPrefix (p ++ tail) p = len p.
Proof.
  unfold len.
  induction p as [|x p IH]; intros tail; cbn [crbytes.CommonPrefix app length].
  - now destruct tail.
  - rewrite Z.eqb_refl, IH, Nat2Z.inj_succ. lia.
Qed.

Lemma len_nil {A : Type} : len (@nil A) = 0.
Proof. reflexivity. Qed.

Lemma len_cons {A : Type} (x : A) (s : list A) : len (x :: s) = 1 + len s.
Proof. unfold len. cbn [length]. rewrite Nat2Z.inj_succ. lia. Qed.

Lemma len_nonneg {A : Type} (s : list A) : 0 <= len s.
Proof. unfold len. lia. Qed.

Lemma index_cons (x : byte) (s : Bytes) (i : Z) :
  0 <= i -> index (x :: s) (1 + i) = index s i.
Proof.
  intros H. unfold index.
  replace (Z.to_nat (1 + i)) with (S (Z.to_nat i)) by lia.
  reflexivity.
Qed.

(** How the length of the common prefix decides the lexicographic order. *)
Lemma CommonPrefix_Compare (lp : Bytes) : forall p,
  0 <= crbytes.CommonPrefix lp p <= len lp /\
  crbytes.CommonPrefix lp p <= len p /\
  (crbytes.CommonPrefix lp p = len p -> len p = len lp -> bytes.Compare p lp = 0) /\
  (crbytes.CommonPrefix lp p = len lp -> len lp < len p -> bytes.Compare p lp = 1) /\
  (crbytes.CommonPrefix lp p = len p -> len p < len lp -> bytes.Compare p lp = -1) /\
  (crbytes.CommonPrefix lp p < len lp -> crbytes.CommonPrefix lp p < len p ->
   bytes.Compare p lp
   = cmp.Compare (index p (crbytes.CommonPrefix lp p))
       (index lp (crbytes.CommonPrefix lp p))
   /\ bytes.Compare p lp <> 0).
Proof.
  unfold len.
  induction lp as [|x lp IH]; intros [|y p];
    cbn [crbytes.CommonPrefix bytes.Compare length].
  - repeat split; try lia.
  - repeat split; try lia.
  - repeat split; try lia.
  - destruct (IH p) as (B1 & B2 & E & G & L & D).
    destruct (x =? y) eqn:Exy.
    + apply Z.eqb_eq in Exy. subst y.
      rewrite Z.ltb_irrefl.
      repeat split; try lia.
      rewrite index_cons, index_cons by lia. apply D; lia.
    + apply Z.eqb_neq in Exy.
      unfold index, cmp.Compare. cbn [Z.to_nat nth].
      destruct (y <? x) eqn:A; [repeat split; lia|].
      destruct (x <? y) eqn:B; [repeat split; lia|].
      apply Z.ltb_ge in A, B. lia.
Qed.


Lemma len_prefixOf (key : Bytes) : len (prefixOf key) = crdbtest.Split key - 1.
Proof.
  unfold prefixOf, crdbtest.Split.
  pose proof (sentinelIndex_bounds key).
  apply slice_0_len. lia.
Qed.



Lemma index_slice (key : Bytes) (n i : Z) :
  0 <= i < n -> index (slice key 0 n) i = index key i.
Proof.
  intros H. unfold index, slice. cbn [Z.to_nat skipn]. rewrite Z.sub_0_r.
  rewrite nth_firstn.
  destruct (Nat.ltb_spec (Z.to_nat i) (Z.to_nat n)); [reflexivity|lia].
Qed.



(** ** ComparePrev *)


(** What [ComparePrev] computes once a previous row with prefix [lp] and
    suffix [ps] is in place, in terms of the lexicographic order of the two
    prefixes. *)
Lemma ComparePrev_cases (kw : cockroachKeyWriter) (key : Bytes) :
  (PrefixBytesBuilder.Rows (kw_roachKeys kw) =? 0) = false ->
  crdbtest.Split key < 2 ^ 31 ->
  let lp := PrefixBytesBuilder.UnsafeGet (kw_roachKeys kw)
              (PrefixBytesBuilder.Rows (kw_roachKeys kw) - 1) in
  let c := crbytes.CommonPrefix lp (prefixOf key) in
  ComparePrev kw key =
  if c =? len (prefixOf key) then
    {| PrefixLen := crdbtest.Split key;
       CommonPrefixLen := crdbtest.Split key;
       UserKeyComparison :=
         crdbtest.CompareSuffixes (slice_from key (crdbtest.Split key))
           (kw_prevSuffix kw) |}
  else if len lp =? c then
    {| PrefixLen := crdbtest.Split key; CommonPrefixLen := c;
       UserKeyComparison := 1 |}
  else
    {| PrefixLen := crdbtest.Split key; CommonPrefixLen := c;
       UserKeyComparison := cmp.Compare (index key c) (index lp c) |}.
Proof.
  intros Hrows Hsplit lp c.
  pose proof (sentinelIndex_bounds key) as Hs.
  assert (Hp : int32 (crdbtest.Split key) = crdbtest.Split key).
  { apply int32_small. unfold crdbtest.Split in *.
    change (2 ^ 31) with 2147483648 in *. lia. }
  assert (Hp1 : int32 (crdbtest.Split key - 1) = crdbtest.Split key - 1).
  { apply int32_small. unfold crdbtest.Split in *.
    change (2 ^ 31) with 2147483648 in *. lia. }
  unfold ComparePrev. rewrite Hrows, Hp, Hp1.
  fold lp. fold (prefixOf key). fold c.
  destruct (CommonPrefix_Compare lp (prefixOf key)) as (B1 & B2 & _).
  fold c in B1, B2. pose proof (len_prefixOf key) as Hl.
  assert (Hc : int32 c = c).
  { apply int32_small. change (2 ^ 31) with 2147483648 in *. lia. }
  rewrite Hc, Hl.
  destruct (c =? crdbtest.Split key - 1).
  - rewrite int32_sign by apply CompareSuffixes_range. reflexivity.
  - destruct (len lp =? c); [reflexivity|].
    rewrite int32_sign by apply cmp_Compare_range. reflexivity.
Qed.

(** C10.  Whenever the new key's prefix (without the sentinel) is a leading
    substring of the previous row's prefix, also when the previous prefix is
    strictly longer ([tail] non-empty), [ComparePrev] reports a common prefix
    length equal to the new key's prefix length including the sentinel, and
    its comparison result is that of the new key's suffix region against the
    stored previous suffix; the prefixes are not compared. *)
Theorem ComparePrev_prefix_within_previous
    (kw : cockroachKeyWriter) (key tail : Bytes) :
  PrefixBytesBuilder.Rows (kw_roachKeys kw) <> 0 ->
  crdbtest.Split key < 2 ^ 31 ->
  PrefixBytesBuilder.UnsafeGet (kw_roachKeys kw)
    (PrefixBytesBuilder.Rows (kw_roachKeys kw) - 1) = prefixOf key ++ tail ->
  ComparePrev kw key =
  {| PrefixLen := crdbtest.Split key;
     CommonPrefixLen := crdbtest.Split key;
     UserKeyComparison :=
       crdbtest.CompareSuffixes (slice_from key (crdbtest.Split key))
         (kw_prevSuffix kw) |}.
Proof.
  intros Hrows Hsplit Hlp.
  apply Z.eqb_neq in Hrows.
  rewrite (ComparePrev_cases kw key Hrows Hsplit).
  cbv zeta. rewrite Hlp, CommonPrefix_app, Z.eqb_refl. reflexivity.
Qed.

Lemma ComparePrev_prefix_within_previous_witness :
  ComparePrev kw_abc [97; 98; 0] =
  {| PrefixLen := 3; CommonPrefixLen := 3; UserKeyComparison := 0 |}.
Proof.
  apply (ComparePrev_prefix_within_previous kw_abc [97; 98; 0] [99]).
  - vm_compute. discriminate.
  - vm_compute. reflexivity.
  - vm_compute. reflexivity.
Defined.





(** ** The binary search of [seekGEOnSuffix] *)

Lemma midpoint (l u : Z) :
  0 <= l -> l < u -> u < 2 ^ 63 ->
  Z.shiftr ((l + u) mod 2 ^ 64) 1 = (l + u) / 2
  /\ l <= (l + u) / 2 < u.
Proof.
  change (2 ^ 63) with 9223372036854775808.
  change (2 ^ 64) with 18446744073709551616.
  intros Hl Hlu Hu.
  rewrite Z.mod_small by lia.
  rewrite Z.shiftr_div_pow2 by lia. change (2 ^ 1) with 2.
  split; [reflexivity|].
  split.
  - apply Z.div_le_lower_bound; lia.
  - apply Z.div_lt_upper_bound; lia.
Qed.

(** The loop does not depend on the fuel once there is enough of it: it has
    then run to its exit condition. *)
Lemma searchLoop_more_fuel (f : Z -> bool) : forall fuel1 fuel2 l u,
  0 <= l -> u < 2 ^ 63 ->
  (Z.to_nat (u - l) <= fuel1)%nat -> (Z.to_nat (u - l) <= fuel2)%nat ->
  searchLoop fuel1 f l u = searchLoop fuel2 f l u.
Proof.
  induction fuel1 as [|fuel1 IH]; intros fuel2 l u Hl Hu H1 H2.
  - destruct fuel2 as [|fuel2]; [reflexivity|].
    cbn [searchLoop]. destruct (Z.ltb_spec l u); [lia|reflexivity].
  - destruct fuel2 as [|fuel2]; cbn [searchLoop].
    + destruct (Z.ltb_spec l u); [lia|reflexivity].
    + destruct (Z.ltb_spec l u) as [Hlt|]; [|reflexivity].
      destruct (midpoint l u Hl Hlt Hu) as [-> Hh].
      destruct (f ((l + u) / 2)); apply IH; lia.
Qed.

(** The loop invariant carried to the exit: the result lies in [[l, u]], the
    condition holds at the result unless it is [u], and fails just before the
    result unless it is [l]. *)
Lemma searchLoop_spec (f : Z -> bool) : forall fuel l u,
  0 <= l -> l <= u -> u < 2 ^ 63 ->
  (Z.to_nat (u - l) <= fuel)%nat ->
  l <= searchLoop fuel f l u <= u
  /\ (searchLoop fuel f l u < u -> f (searchLoop fuel f l u) = true)
  /\ (l < searchLoop fuel f l u -> f (searchLoop fuel f l u - 1) = false).
Proof.
  induction fuel as [|fuel IH]; intros l u Hl Hlu Hu Hfuel; cbn [searchLoop].
  - repeat split; lia.
  - destruct (Z.ltb_spec l u) as [Hlt|]; [|repeat split; lia].
    destruct (midpoint l u Hl Hlt Hu) as [-> Hh].
    destruct (f ((l + u) / 2)) eqn:Hf.
    + destruct (IH l ((l + u) / 2)) as (R1 & R2 & R3); try lia.
      repeat split; try lia; [|exact R3].
      intros _.
      destruct (Z.eq_dec (searchLoop fuel f l ((l + u) / 2)) ((l + u) / 2))
        as [->|]; [exact Hf|apply R2; lia].
    + destruct (IH ((l + u) / 2 + 1) u) as (R1 & R2 & R3); try lia.
      repeat split; try lia; [exact R2|].
      intros _.
      destruct (Z.eq_dec (searchLoop fuel f ((l + u) / 2 + 1) u)
                  ((l + u) / 2 + 1)) as [->|].
      * rewrite Z.add_simpl_r. exact Hf.
      * apply R3; lia.
Qed.

Lemma search_spec (f : Z -> bool) (l u : Z) :
  0 <= l -> l <= u -> u < 2 ^ 63 ->
  l <= search f l u <= u
  /\ (search f l u < u -> f (search f l u) = true)
  /\ (l < search f l u -> f (search f l u - 1) = false).
Proof.
  intros Hl Hlu Hu. unfold search. apply searchLoop_spec; auto.
Qed.

(** On a condition that, once true, stays true up to [u], the search returns
    the first row of [[l, u)] at which it holds, or [u]. *)
Lemma search_least (f : Z -> bool) (l u : Z) :
  0 <= l -> l <= u -> u < 2 ^ 63 ->
  (forall i j, l <= i -> i <= j -> j < u -> f i = true -> f j = true) ->
  forall i, l <= i < search f l u -> f i = false.
Proof.
  intros Hl Hlu Hu Hmono i Hi.
  destruct (search_spec f l u Hl Hlu Hu) as (R1 & R2 & R3).
  destruct (f i) eqn:Hfi; [|reflexivity].
  rewrite <- (R3 ltac:(lia)). symmetry.
  apply (Hmono i (search f l u - 1)); try lia. exact Hfi.
Qed.

Lemma seekFrom_bounds (bits : list bool) : forall pos i,
  pos <= Bitmap.seekFrom bits pos i <= pos + len bits
  /\ (i <= pos + len bits -> i <= Bitmap.seekFrom bits pos i).
Proof.
  unfold len.
  induction bits as [|b bits IH]; intros pos i; cbn [Bitmap.seekFrom length].
  - lia.
  - destruct (b && (i <=? pos)) eqn:Hb.
    + apply andb_prop in Hb. destruct Hb as [_ Hb]. apply Z.leb_le in Hb. lia.
    + specialize (IH (pos + 1) i). lia.
Qed.

Lemma SeekSetBitGE_bounds (bits : list bool) (i : Z) :
  0 <= i <= len bits ->
  i <= Bitmap.SeekSetBitGE bits i <= len bits.
Proof.
  intros H. unfold Bitmap.SeekSetBitGE.
  pose proof (seekFrom_bounds bits 0 i). lia.
Qed.

(** C4 (amended).  [seekGEOnSuffix] classifies the seek suffix by its length
    alone: length 0 returns the starting index at once; lengths 9, 13 and 14
    are parsed as MVCC (big-endian 64-bit wall time and, for lengths 13 and
    14, a big-endian 32-bit logical counter) and searched with the
    MVCC-descending condition; every other length is untyped and resolved by
    an ascending lexicographic binary search over the untyped-version column.
    Each search runs over the rows from the starting index to the end [u] of
    its equal-prefix run and stops where its condition turns true. *)
Theorem seekGEOnSuffix_by_length
    (ks : cockroachKeySeeker) (r : DataBlockReader) (idx : Z) (s : Bytes) :
  ks_reader ks = Some r ->
  0 <= idx < len (prefixChanged r) ->
  len (prefixChanged r) < 2 ^ 63 ->
  let u := Bitmap.SeekSetBitGE (prefixChanged r) (idx + 1) in
  (len s = 0 -> seekGEOnSuffix ks idx s = Some idx)
  /\ (len s = 9 ->
      let f := mvccGE ks (binary.Uint64 s) 0 in
      seekGEOnSuffix ks idx s = Some (search f idx u)
      /\ boundary f idx u (search f idx u))
  /\ (len s = 13 \/ len s = 14 ->
      let f := mvccGE ks (binary.Uint64 s) (binary.Uint32 (slice_from s 8)) in
      seekGEOnSuffix ks idx s = Some (search f idx u)
      /\ boundary f idx u (search f idx u))
  /\ (len s <> 0 -> len s <> 9 -> len s <> 13 -> len s <> 14 ->
      let f := untypedGE ks s in
      seekGEOnSuffix ks idx s = Some (search f idx u)
      /\ boundary f idx u (search f idx u)).
Proof.
  intros Hr Hidx Hn u.
  assert (Hu : idx + 1 <= u <= len (prefixChanged r))
    by (apply SeekSetBitGE_bounds; lia).
  assert (Hb : forall f, boundary f idx u (search f idx u))
    by (intros f; apply search_spec; lia).
  unfold seekGEOnSuffix, withSynthetic, withLogical, withWall.
  rewrite Hr. fold u.
  change (9 + 4 + 1) with 14. change (9 + 4) with 13.
  split; [|split; [|split]].
  - intros ->. reflexivity.
  - intros ->. split; [reflexivity|apply Hb].
  - intros [-> | ->]; (split; [reflexivity|apply Hb]).
  - intros H0 H9 H13 H14.
    apply Z.eqb_neq in H0, H9, H13, H14.
    rewrite H0, H9, H13, H14. split; [reflexivity|apply Hb].
Qed.

Lemma seekGEOnSuffix_by_length_witness :
  seekGEOnSuffix ks_k200 0 suffix14 = Some 0.
Proof.
  pose proof (seekGEOnSuffix_by_length ks_k200
                (finishBlock (writeKeys [key_k200])) 0 suffix14) as H.
  destruct H as (_ & _ & H & _).
  - reflexivity.
  - vm_compute. split; [discriminate|reflexivity].
  - vm_compute. reflexivity.
  - destruct H as [H _]; [right; reflexivity|].
    rewrite H. vm_compute. reflexivity.
Defined.

(** C4 as stated fails: a suffix of length 14 is none of 0, 9 and 13, yet it
    is not searched as an untyped suffix; the MVCC search answers row 0 where
    the untyped search would answer row 1. *)
Lemma seekGEOnSuffix_len14_counterexample :
  len suffix14 <> 0 /\ len suffix14 <> 9 /\ len suffix14 <> 13
  /\ seekGEOnSuffix ks_k200 0 suffix14 = Some 0
  /\ search (untypedGE ks_k200 suffix14) 0
       (Bitmap.SeekSetBitGE (prefixChanged (finishBlock (writeKeys [key_k200]))) 1)
     = 1.
Proof. vm_compute. repeat split; discriminate. Qed.

(** On a run of MVCC rows held newest first the MVCC search condition, once
    true, stays true. *)
Lemma mvccGE_monotone (ks : cockroachKeySeeker) (w l lo hi : Z) :
  newestFirst ks lo hi ->
  forall i j, lo <= i -> i <= j -> j < hi ->
    mvccGE ks w l i = true -> mvccGE ks w l j = true.
Proof.
  intros Hrun i j Hlo Hij Hhi Hi.
  specialize (Hrun i j Hlo Hij Hhi).
  unfold mvccGE in *.
  apply orb_true_iff in Hi, Hrun. apply orb_true_iff.
  rewrite andb_true_iff, Z.ltb_lt, Z.eqb_eq, Z.leb_le in *.
  lia.
Qed.

(** On such a run a seek with an MVCC suffix lands on the first row whose
    timestamp is at most the seek timestamp: the condition fails on every row
    before the result and holds on every row from it to the end of the
    run. *)
Lemma seekGEOnSuffix_mvcc_run
    (ks : cockroachKeySeeker) (r : DataBlockReader) (idx : Z) (s : Bytes) :
  ks_reader ks = Some r ->
  0 <= idx < len (prefixChanged r) ->
  len (prefixChanged r) < 2 ^ 63 ->
  len s = 9 \/ len s = 13 \/ len s = 14 ->
  let u := Bitmap.SeekSetBitGE (prefixChanged r) (idx + 1) in
  let f := mvccGE ks (binary.Uint64 s)
             (if len s =? 9 then 0 else binary.Uint32 (slice_from s 8)) in
  newestFirst ks idx u ->
  exists row,
    seekGEOnSuffix ks idx s = Some row
    /\ idx <= row <= u
    /\ (forall i, idx <= i < row -> f i = false)
    /\ (forall j, row <= j < u -> f j = true).
Proof.
  intros Hr Hidx Hn Hlen u f Hrun.
  assert (Hu : idx + 1 <= u <= len (prefixChanged r))
    by (apply SeekSetBitGE_bounds; lia).
  exists (search f idx u).
  destruct (search_spec f idx u) as (R1 & R2 & R3); try lia.
  assert (Hmono : forall i j, idx <= i -> i <= j -> j < u ->
                    f i = true -> f j = true)
    by (intros i j; apply mvccGE_monotone; exact Hrun).
  split; [|split; [exact R1|split]].
  - unfold seekGEOnSuffix, withSynthetic, withLogical, withWall.
    rewrite Hr. fold u. subst f.
    change (9 + 4 + 1) with 14. change (9 + 4) with 13.
    destruct Hlen as [-> | [-> | ->]]; reflexivity.
  - apply search_least; try lia. exact Hmono.
  - intros j Hj. apply (Hmono (search f idx u) j); try lia.
    apply R2. lia.
Qed.

(** ** SeekGE *)

(** C9.  [SeekGE] returns the same (row, equal-prefix) pair whatever the
    values of its [boundRow] and [searchDir] arguments. *)
Theorem SeekGE_ignores_boundRow_and_searchDir
    (ks : cockroachKeySeeker) (key : Bytes)
    (boundRow1 searchDir1 boundRow2 searchDir2 : Z) :
  SeekGE ks key boundRow1 searchDir1 = SeekGE ks key boundRow2 searchDir2.
Proof. reflexivity. Qed.

(** C3 at a failing input: the block holds the bare key "k" 0x00 followed by
    "k"@100, in comparator order.  For the query "k"@175 the bare row sorts
    below the query and row 1 is the first row at or above it, yet [SeekGE]
    answers row 0. *)
Theorem SeekGE_bare_row_below_mvcc_query :
  crdbtest.Compare key_kbare key_k100 = -1
  /\ crdbtest.Compare key_kbare key_k175 = -1
  /\ crdbtest.Compare key_k100 key_k175 = 1
  /\ SeekGE (seekerOf [key_kbare; key_k100]) key_k175 0 0 = Some (0, true).
Proof. vm_compute. repeat split. Qed.

(** ** IsLowerBound *)

(** C6 at a failing input: the block's first key is "k"@200 and the query is
    "k"@100.  Newer timestamps sort first, so the first key is below the
    query, yet [IsLowerBound] answers true; with the roles exchanged it
    answers false although the first key is above the query. *)
Theorem IsLowerBound_mvcc_order_inverted (invariantsEnabled : bool) :
  crdbtest.Compare key_k200 key_k100 = -1
  /\ IsLowerBound invariantsEnabled (seekerOf [key_k200]) key_k100 [] = Some true
  /\ crdbtest.Compare key_k100 key_k200 = 1
  /\ IsLowerBound invariantsEnabled (seekerOf [key_k100]) key_k200 [] = Some false.
Proof. destruct invariantsEnabled; vm_compute; repeat split. Qed.

(** ** Release *)

(** C8.  After [Release] the released seeker holds the zero value in every
    field (no reader, empty column views, empty shared prefix), its address
    is in the pool, and no other seeker has changed. *)
Theorem Release_clears_seeker (ks : nat) (st : SeekerStore) :
  exists s,
    cells (Release ks st) ks = Some s
    /\ ks_reader s = None
    /\ ks_roachKeys s = []
    /\ ks_mvccWallTimes s = []
    /\ ks_mvccLogical s = []
    /\ ks_untypedVersions s = []
    /\ ks_sharedPrefix s = []
    /\ pool (Release ks st) = ks :: pool st
    /\ (forall q, q <> ks -> cells (Release ks st) q = cells st q).
Proof.
  exists zeroSeeker. cbn [Release cells pool].
  rewrite Nat.eqb_refl. repeat split.
  intros q Hq. apply Nat.eqb_neq in Hq. rewrite Hq. reflexivity.
Qed.

Lemma Release_clears_seeker_witness :
  cells (Release 0 store2) 0%nat = Some zeroSeeker
  /\ cells (Release 0 store2) 1%nat = Some (seekerOf [key_k100]).
Proof.
  destruct (Release_clears_seeker 0 store2)
    as (s & Hs & _ & _ & _ & _ & _ & _ & _ & Hframe).
  split.
  - reflexivity.
  - rewrite (Hframe 1%nat) by discriminate. reflexivity.
Defined.

(** ** Materialization *)

(** C1 at a failing input: the key with prefix "p", wall time 10 and logical
    counter 5 is written to an empty block.  The writer's [MaterializeKey]
    gives the key back, but the seeker's [MaterializeUserKey] returns a
    different byte sequence (its logical field reads 10). *)
Theorem roundtrip_breaks_on_logical_counter :
  key_p_10_5 = [112; 0; 0; 0; 0; 0; 0; 0; 0; 10; 0; 0; 0; 5; 13]
  /\ MaterializeKey (writeKeys [key_p_10_5]) [] 0 = key_p_10_5
  /\ fst (MaterializeUserKey (seekerOf [key_p_10_5]) (-1) 0 (freshMem 32))
     = Done [112; 0; 0; 0; 0; 0; 0; 0; 0; 10; 0; 0; 0; 10; 13].
Proof. vm_compute. repeat split. Qed.

(** C2 at a failing input: a row with wall time 0x0102030405060708 and
    logical counter 7.  After the prefix, the sentinel and the 8 wall-time
    bytes, [MaterializeUserKey] writes the low 4 bytes of the wall time
    (5 6 7 8) where the big-endian logical counter (0 0 0 7) belongs. *)
Theorem MaterializeUserKey_logical_field_holds_wall_time :
  UnsafeUints.At (ks_mvccWallTimes (seekerOf [key_q])) 0 = wall_0102030405060708
  /\ UnsafeUints.At (ks_mvccLogical (seekerOf [key_q])) 0 = 7
  /\ fst (MaterializeUserKey (seekerOf [key_q]) (-1) 0 (freshMem 32))
     = Done ([113; 0] ++ [1; 2; 3; 4; 5; 6; 7; 8] ++ [5; 6; 7; 8] ++ [13])
  /\ crdbtest.putUint32 7 = [0; 0; 0; 7].
Proof. vm_compute. repeat split. Qed.







Lemma position_run (ks : cockroachKeySeeker) (prevRow row : Z) (m : Mem) :
  position ks prevRow row m = (Done tt, positioned ks prevRow row m)
  /\ capacity (positioned ks prevRow row m) = capacity m
  /\ stray (positioned ks prevRow row m) = stray m
  /\ 0 <= buflen (ki (positioned ks prevRow row m)).
Proof.
  assert (H : forall r, loadPrefix (ks_roachKeys ks) r m
                        = (Done tt, snd (loadPrefix (ks_roachKeys ks) r m))
              /\ capacity (snd (loadPrefix (ks_roachKeys ks) r m)) = capacity m
              /\ stray (snd (loadPrefix (ks_roachKeys ks) r m)) = stray m
              /\ 0 <= buflen (ki (snd (loadPrefix (ks_roachKeys ks) r m)))).
  { intros r. unfold loadPrefix, capacity, len. cbn [snd ki backing stray buflen].
    repeat split; try lia.
    rewrite length_app, length_firstn, length_skipn. lia. }
  unfold positioned, position, SetNext, SetAt.
  destruct ((prevRow + 1 =? row) && (0 <=? prevRow)); apply H.
Qed.







Lemma setByte_app (pre : Bytes) : forall rest k b,
  setByte (pre ++ rest) (length pre + k) b = pre ++ setByte rest k b.
Proof.
  induction pre as [|x pre IH]; intros rest k b; cbn [app length Nat.add].
  - reflexivity.
  - cbn [setByte]. f_equal. apply IH.
Qed.

(** A raw store that falls [k] bytes after a leading part [pre] of the
    array. *)
Lemma storeMem_at (pre rest : Bytes) (k : nat) (off bl c : Z) (b : byte)
    (st : list (Z * byte)) :
  off = len pre + Z.of_nat k ->
  (k < length rest)%nat ->
  storeMem off b
    {| ki := {| backing := pre ++ rest; buflen := bl; cur := c |}; stray := st |}
  = {| ki := {| backing := pre ++ setByte rest k b; buflen := bl; cur := c |};
       stray := st |}.
Proof.
  intros Hoff Hk. unfold storeMem, capacity, len in *. cbn [ki backing stray buflen cur].
  rewrite length_app.
  destruct (Z.leb_spec 0 off); [|lia].
  destruct (Z.ltb_spec off (Z.of_nat (length pre + length rest))); [|lia].
  cbn [andb].
  replace (Z.to_nat off) with (length pre + k)%nat by lia.
  rewrite setByte_app. reflexivity.
Qed.

(** What the MVCC path of [MaterializeUserKey] returns when the buffer is
    large enough: the prefix, the sentinel, the 8 big-endian wall-time bytes
    and then either the length byte 9 or the low 4 bytes of the wall time
    followed by the length byte 13. *)
Lemma MaterializeUserKey_mvcc_layout
    (ks : cockroachKeySeeker) (prevRow row : Z) (m : Mem) :
  let m0 := positioned ks prevRow row m in
  let wall := UnsafeUints.At (ks_mvccWallTimes ks) row in
  let logical := uint32 (UnsafeUints.At (ks_mvccLogical ks) row) in
  (wall =? 0) && (logical =? 0) = false ->
  buflen (ki m0) + mvccSuffixLen ks row <= capacity m ->
  fst (MaterializeUserKey ks prevRow row m)
  = Done (firstn (Z.to_nat (buflen (ki m0))) (backing (ki m0))
          ++ [0] ++ crdbtest.putUint64 wall
          ++ (if logical =? 0 then [9] else crdbtest.putUint32 wall ++ [13])).
Proof.
  intros m0 wall logical Hmvcc Hfit.
  destruct (position_run ks prevRow row m) as (Hpos & Hcap & Hstray & Hlen).
  fold m0 in Hpos, Hcap, Hstray, Hlen.
  unfold MaterializeUserKey.
  change (if (prevRow + 1 =? row) && (0 <=? prevRow)
          then SetNext (ks_roachKeys ks) else SetAt (ks_roachKeys ks) row)
    with (position ks prevRow row).
  unfold bind at 1. rewrite Hpos.
  unfold bind at 1. unfold getLen at 1.
  fold wall logical. rewrite Hmvcc.
  unfold mvccSuffixLen in Hfit. fold logical in Hfit.
  rewrite <- Hcap in Hfit. clear Hpos Hcap Hstray.
  destruct m0 as [[bk bl c] st]. unfold capacity in Hfit.
  cbn [ki backing buflen stray cur] in *.
  rewrite <- (firstn_skipn (Z.to_nat bl) bk) in Hfit |- * at 1.
  set (pre := firstn (Z.to_nat bl) bk) in *.
  assert (Hpre : len pre = bl).
  { assert (Hbk : len (pre ++ skipn (Z.to_nat bl) bk) = len bk)
      by (unfold pre; now rewrite firstn_skipn).
    rewrite Hbk in Hfit. unfold pre, len in *. rewrite length_firstn.
    destruct (logical =? 0); lia. }
  remember (skipn (Z.to_nat bl) bk) as rest eqn:Hrest. clear Hrest.
  clearbody pre.
  unfold len in Hfit, Hpre. rewrite length_app in Hfit.
  destruct (logical =? 0).
  - do 10 (destruct rest as [|? rest]; [exfalso; cbn [length] in Hfit; lia|]).
    cbv [bind store getLen].
    rewrite (storeMem_at pre _ 0) by (unfold len; cbn [length setByte]; lia).
    rewrite (storeMem_at pre _ 1) by (unfold len; cbn [length setByte]; lia).
    rewrite (storeMem_at pre _ 2) by (unfold len; cbn [length setByte]; lia).
    rewrite (storeMem_at pre _ 3) by (unfold len; cbn [length setByte]; lia).
    rewrite (storeMem_at pre _ 4) by (unfold len; cbn [length setByte]; lia).
    rewrite (storeMem_at pre _ 5) by (unfold len; cbn [length setByte]; lia).
    rewrite (storeMem_at pre _ 6) by (unfold len; cbn [length setByte]; lia).
    rewrite (storeMem_at pre _ 7) by (unfold len; cbn [length setByte]; lia).
    rewrite (storeMem_at pre _ 8) by (unfold len; cbn [length setByte]; lia).
    rewrite (storeMem_at pre _ 9) by (unfold len; cbn [length setByte]; lia).
    cbn [setByte ki buflen]. cbv [sliceTo contents capacity].
    cbn [ki backing]. unfold len at 1. rewrite length_app. cbn [length].
    destruct (Z.leb_spec 0 (bl + 10)); [|lia].
    destruct (Z.leb_spec (bl + 10) (Z.of_nat (length pre + S (S (S (S (S (S (S (S (S (S (length rest)))))))))))));
      [|unfold len in *; lia].
    cbn [andb fst]. f_equal.
    replace (Z.to_nat (bl + 10)) with (length pre + 10)%nat
      by lia.
    cbn [ki backing]. rewrite firstn_app_2. cbn [firstn].
    unfold crdbtest.putUint64, crdbtest.putUint32. cbn [map app].
    rewrite ?Z.shiftr_0_r. reflexivity.
  - do 14 (destruct rest as [|? rest]; [exfalso; cbn [length] in Hfit; lia|]).
    cbv [bind store getLen].
    rewrite (storeMem_at pre _ 0) by (unfold len; cbn [length setByte]; lia).
    rewrite (storeMem_at pre _ 1) by (unfold len; cbn [length setByte]; lia).
    rewrite (storeMem_at pre _ 2) by (unfold len; cbn [length setByte]; lia).
    rewrite (storeMem_at pre _ 3) by (unfold len; cbn [length setByte]; lia).
    rewrite (storeMem_at pre _ 4) by (unfold len; cbn [length setByte]; lia).
    rewrite (storeMem_at pre _ 5) by (unfold len; cbn [length setByte]; lia).
    rewrite (storeMem_at pre _ 6) by (unfold len; cbn [length setByte]; lia).
    rewrite (storeMem_at pre _ 7) by (unfold len; cbn [length setByte]; lia).
    rewrite (storeMem_at pre _ 8) by (unfold len; cbn [length setByte]; lia).
    rewrite (storeMem_at pre _ 9) by (unfold len; cbn [length setByte]; lia).
    rewrite (storeMem_at pre _ 10) by (unfold len; cbn [length setByte]; lia).
    rewrite (storeMem_at pre _ 11) by (unfold len; cbn [length setByte]; lia).
    rewrite (storeMem_at pre _ 12) by (unfold len; cbn [length setByte]; lia).
    rewrite (storeMem_at pre _ 13) by (unfold len; cbn [length setByte]; lia).
    cbn [setByte ki buflen]. cbv [sliceTo contents capacity].
    cbn [ki backing]. unfold len at 1. rewrite length_app. cbn [length].
    destruct (Z.leb_spec 0 (bl + 14)); [|lia].
    destruct (Z.leb_spec (bl + 14) (Z.of_nat (length pre + S (S (S (S (S (S (S (S (S (S (S (S (S (S (length rest)))))))))))))))));
      [|unfold len in *; lia].
    cbn [andb fst]. f_equal.
    replace (Z.to_nat (bl + 14)) with (length pre + 14)%nat
      by lia.
    cbn [ki backing]. rewrite firstn_app_2. cbn [firstn].
    unfold crdbtest.putUint64, crdbtest.putUint32. cbn [map app].
    rewrite ?Z.shiftr_0_r. reflexivity.
Qed.

(** ** Materialization with a buffer that has room *)

Lemma positioned_prefix (ks : cockroachKeySeeker) (prevRow row : Z) (m : Mem) :
  iterReady m prevRow row ->
  len (PrefixBytes.At (ks_roachKeys ks) row) <= capacity m ->
  let m0 := positioned ks prevRow row m in
  buflen (ki m0) = len (PrefixBytes.At (ks_roachKeys ks) row)
  /\ backing (ki m0)
     = PrefixBytes.At (ks_roachKeys ks) row
       ++ skipn (length (PrefixBytes.At (ks_roachKeys ks) row)) (backing (ki m)).
Proof.
  intros Hready Hcap m0.
  assert (Hrow : m0 = snd (loadPrefix (ks_roachKeys ks) row m)).
  { unfold m0, positioned, position, SetNext, SetAt.
    destruct ((prevRow + 1 =? row) && (0 <=? prevRow)) eqn:Hfast; [|reflexivity].
    apply andb_prop in Hfast. destruct Hfast as [H1 H2].
    apply Z.eqb_eq in H1. apply Z.leb_le in H2.
    rewrite (Hready H1 H2), H1. reflexivity. }
  rewrite Hrow. unfold loadPrefix. cbn [snd ki buflen backing].
  split; [reflexivity|].
  rewrite firstn_all2; [reflexivity|].
  unfold capacity, len in Hcap. lia.
Qed.

(** [memmove] over bytes of the array: the [length src] bytes after the
    leading part [pre] are replaced by [src]. *)
Lemma memmove_at (src : Bytes) : forall pre old rest off bl c st,
  off = len pre ->
  length old = length src ->
  memmove off src
    {| ki := {| backing := pre ++ old ++ rest; buflen := bl; cur := c |};
       stray := st |}
  = (Done tt,
     {| ki := {| backing := pre ++ src ++ rest; buflen := bl; cur := c |};
        stray := st |}).
Proof.
  induction src as [|b src IH]; intros pre old rest off bl c st Hoff Hlen.
  - destruct old; [reflexivity|discriminate].
  - destruct old as [|o old]; [discriminate|].
    cbn [memmove]. unfold bind, store.
    rewrite (storeMem_at pre _ 0)
      by (rewrite ?length_app; cbn [length]; lia).
    cbn [setByte app].
    replace (pre ++ b :: old ++ rest) with ((pre ++ [b]) ++ old ++ rest)
      by (rewrite <- app_assoc; reflexivity).
    rewrite (IH (pre ++ [b]) old rest).
    + rewrite <- app_assoc. reflexivity.
    + unfold len in *. rewrite length_app. cbn [length]. lia.
    + cbn [length] in Hlen. lia.
Qed.

(** A list at least as long as [n] splits into its first [n] elements and
    the rest. *)
Lemma split_at (n : nat) (l : Bytes) :
  (n <= length l)%nat ->
  exists old rest, l = old ++ rest /\ length old = n /\ rest = skipn n l.
Proof.
  intros H. exists (firstn n l), (skipn n l).
  rewrite firstn_skipn, length_firstn. repeat split. lia.
Qed.

Lemma skipn_app_exact (a b : Bytes) (n : nat) :
  n = length a -> skipn n (a ++ b) = b.
Proof.
  intros ->. rewrite skipn_app, skipn_all, Nat.sub_diag. reflexivity.
Qed.

(** The state both materialization functions start writing from, spelled
    out: the prefix of [row] heads the array and [ki.buf] has its length. *)
Lemma position_state (ks : cockroachKeySeeker) (prevRow row : Z) (m : Mem) :
  iterReady m prevRow row ->
  len (PrefixBytes.At (ks_roachKeys ks) row) <= capacity m ->
  exists c,
    position ks prevRow row m
    = (Done tt,
       {| ki := {| backing :=
                     PrefixBytes.At (ks_roachKeys ks) row
                     ++ skipn (length (PrefixBytes.At (ks_roachKeys ks) row))
                          (backing (ki m));
                   buflen := len (PrefixBytes.At (ks_roachKeys ks) row);
                   cur := c |};
          stray := stray m |}).
Proof.
  intros Hready Hcap.
  destruct (position_run ks prevRow row m) as (Hpos & _ & Hstray & _).
  destruct (positioned_prefix ks prevRow row m Hready Hcap) as [Hlen Hback].
  rewrite Hpos.
  destruct (positioned ks prevRow row m) as [[bk bl c] st].
  cbn [ki backing buflen stray] in *. subst. exists c. reflexivity.
Qed.

(** X1.  With room for the prefix, the sentinel and the suffix,
    [MaterializeUserKeyWithSyntheticSuffix] returns the row's prefix, 0x00
    and the synthetic suffix, whatever the row's stored suffix columns hold;
    the bytes of the buffer behind the result are untouched and nothing is
    stored outside the buffer. *)
Theorem MaterializeUserKeyWithSyntheticSuffix_result
    (ks : cockroachKeySeeker) (suffix : Bytes) (prevRow row : Z) (m : Mem) :
  iterReady m prevRow row ->
  len (PrefixBytes.At (ks_roachKeys ks) row) + 1 + len suffix <= capacity m ->
  let out := PrefixBytes.At (ks_roachKeys ks) row ++ [0] ++ suffix in
  exists m',
    MaterializeUserKeyWithSyntheticSuffix ks suffix prevRow row m = (Done out, m')
    /\ wroteOnly m m' out.
Proof.
  intros Hready Hfit out.
  set (prefix := PrefixBytes.At (ks_roachKeys ks) row) in *.
  pose proof (len_nonneg suffix) as Hs. pose proof (len_nonneg prefix) as Hp.
  destruct (position_state ks prevRow row m Hready ltac:(fold prefix; lia))
    as (c & Hpos).
  fold prefix in Hpos.
  destruct (split_at (S (length suffix)) (skipn (length prefix) (backing (ki m))))
    as (old & rest & Htail & Hold & Hrest).
  { rewrite length_skipn. unfold capacity, len in *. lia. }
  destruct old as [|o old]; [discriminate|].
  unfold MaterializeUserKeyWithSyntheticSuffix.
  change (if (prevRow + 1 =? row) && (0 <=? prevRow)
          then SetNext (ks_roachKeys ks) else SetAt (ks_roachKeys ks) row)
    with (position ks prevRow row).
  unfold bind at 1. rewrite Hpos, Htail.
  cbv [bind getLen sliceTo store capacity]. cbn [ki backing buflen].
  assert (Hcap : len (prefix ++ (o :: old) ++ rest) = capacity m).
  { rewrite <- Htail. unfold capacity, len. rewrite length_app, length_skipn.
    unfold capacity, len in Hfit. lia. }
  rewrite Hcap.
  destruct (Z.leb_spec 0 (len prefix + 1 + len suffix)); [|lia].
  destruct (Z.leb_spec (len prefix + 1 + len suffix) (capacity m)); [|lia].
  cbn [andb].
  rewrite (storeMem_at prefix _ 0)
    by (rewrite ?length_app; cbn [length]; lia).
  cbn [setByte app].
  assert (Hassoc : forall l : Bytes, prefix ++ 0 :: l = (prefix ++ [0]) ++ l)
    by (intros l; rewrite <- app_assoc; reflexivity).
  rewrite Hassoc.
  rewrite (memmove_at suffix (prefix ++ [0]) old rest).
  2:{ unfold len. rewrite length_app. cbn [length]. lia. }
  2:{ cbn [length] in Hold. lia. }
  cbv [contents]. cbn [ki backing].
  assert (Hout : (prefix ++ [0]) ++ suffix ++ rest = out ++ rest).
  { unfold out. rewrite <- !app_assoc. reflexivity. }
  rewrite Hout.
  assert (Hlen : Z.to_nat (len prefix + 1 + len suffix) = length out).
  { unfold out, len. rewrite !length_app. cbn [length].
    unfold Bytes, byte in *. lia. }
  rewrite Hlen, firstn_app, Nat.sub_diag, firstn_all. cbn [firstn].
  rewrite app_nil_r.
  eexists. split; [reflexivity|].
  unfold wroteOnly. cbn [ki backing stray]. split; [|reflexivity].
  f_equal. rewrite Hrest, skipn_skipn. f_equal.
  unfold out. rewrite !length_app. cbn [length].
  unfold Bytes, byte in *. lia.
Qed.

Lemma MaterializeUserKeyWithSyntheticSuffix_result_witness :
  fst (MaterializeUserKeyWithSyntheticSuffix ks_k200 [1; 2; 3] (-1) 0 (freshMem 8))
  = Done [107; 0; 1; 2; 3].
Proof.
  destruct (MaterializeUserKeyWithSyntheticSuffix_result
              ks_k200 [1; 2; 3] (-1) 0 (freshMem 8)) as (m' & Hrun & _).
  - intros _ _. reflexivity.
  - vm_compute. discriminate.
  - rewrite Hrun. reflexivity.
Defined.

(** The run of [MaterializeUserKey] through its bare-prefix and untyped
    paths, with the final memory. *)
Lemma untyped_path_run
    (ks : cockroachKeySeeker) (prevRow row : Z) (m : Mem) :
  iterReady m prevRow row ->
  UnsafeUints.At (ks_mvccWallTimes ks) row = 0 ->
  uint32 (UnsafeUints.At (ks_mvccLogical ks) row) = 0 ->
  len (PrefixBytes.At (ks_roachKeys ks) row) + 1
  + len (RawBytes.At (ks_untypedVersions ks) row) <= capacity m ->
  let out := PrefixBytes.At (ks_roachKeys ks) row ++ [0]
             ++ RawBytes.At (ks_untypedVersions ks) row in
  exists m',
    MaterializeUserKey ks prevRow row m = (Done out, m')
    /\ wroteOnly m m' out.
Proof.
  intros Hready Hwall Hlogical Hfit out.
  set (prefix := PrefixBytes.At (ks_roachKeys ks) row) in *.
  set (uv := RawBytes.At (ks_untypedVersions ks) row) in *.
  pose proof (len_nonneg uv) as Hs. pose proof (len_nonneg prefix) as Hp.
  destruct (position_state ks prevRow row m Hready ltac:(fold prefix; lia))
    as (c & Hpos).
  fold prefix in Hpos.
  destruct (split_at (S (length uv)) (skipn (length prefix) (backing (ki m))))
    as (old & rest & Htail & Hold & Hrest).
  { rewrite length_skipn. unfold capacity, len in *. lia. }
  destruct old as [|o old]; [discriminate|].
  unfold MaterializeUserKey.
  change (if (prevRow + 1 =? row) && (0 <=? prevRow)
          then SetNext (ks_roachKeys ks) else SetAt (ks_roachKeys ks) row)
    with (position ks prevRow row).
  unfold bind at 1. rewrite Hpos, Htail.
  unfold bind at 1. unfold getLen at 1. cbn [ki buflen].
  rewrite Hwall, Hlogical. cbn [Z.eqb andb]. fold uv.
  assert (Hcap : len (prefix ++ (o :: old) ++ rest) = capacity m).
  { rewrite <- Htail. unfold capacity, len. rewrite length_app, length_skipn.
    unfold capacity, len in Hfit. lia. }
  assert (Hassoc : forall l : Bytes, prefix ++ 0 :: l = (prefix ++ [0]) ++ l)
    by (intros l; rewrite <- app_assoc; reflexivity).
  assert (Hlen : Z.to_nat (len prefix + 1 + len uv) = length out).
  { unfold out, len. rewrite !length_app. cbn [length].
    unfold Bytes, byte in *. lia. }
  assert (Hskip : rest = skipn (length out) (backing (ki m))).
  { rewrite Hrest, skipn_skipn. f_equal.
    unfold out. rewrite !length_app. cbn [length].
    unfold Bytes, byte in *. lia. }
  destruct (Z.eqb_spec (len uv) 0) as [Hz|Hnz].
  - assert (Huv : uv = []) by (destruct uv; [reflexivity|discriminate]).
    assert (Hold0 : old = []).
    { rewrite Huv in Hold. cbn [length] in Hold.
      destruct old; [reflexivity|discriminate]. }
    cbv [bind sliceTo storeChecked store contents capacity].
    cbn [ki backing]. rewrite Hcap.
    destruct (Z.leb_spec 0 (len prefix + 1)); [|lia].
    destruct (Z.leb_spec (len prefix + 1) (capacity m)); [|lia].
    destruct (Z.leb_spec 0 (len prefix)); [|lia].
    cbn [andb].
    match goal with
    | |- context [?a <? ?b] =>
        destruct (Z.ltb_spec a b); [|unfold Bytes, byte in *; lia]
    end.
    rewrite (storeMem_at prefix _ 0)
      by (rewrite ?length_app; cbn [length]; lia).
    cbn [setByte app ki backing]. rewrite Hassoc.
    rewrite Hz, Z.add_0_r in Hlen. rewrite Hlen.
    subst old. cbn [app].
    assert (Hout : prefix ++ [0] = out)
      by (unfold out; rewrite Huv; reflexivity).
    rewrite Hout, firstn_app, Nat.sub_diag, firstn_all. cbn [firstn].
    rewrite app_nil_r.
    eexists. split; [reflexivity|].
    unfold wroteOnly. cbn [ki backing stray]. rewrite <- Hskip. split; reflexivity.
  - cbv [bind sliceTo store capacity]. cbn [ki backing]. rewrite Hcap.
    destruct (Z.leb_spec 0 (len prefix + 1 + len uv)); [|lia].
    destruct (Z.leb_spec (len prefix + 1 + len uv) (capacity m)); [|lia].
    cbn [andb].
    rewrite (storeMem_at prefix _ 0)
      by (rewrite ?length_app; cbn [length]; lia).
    cbn [setByte app]. rewrite Hassoc.
    rewrite (memmove_at uv (prefix ++ [0]) old rest).
    2:{ unfold len. rewrite length_app. cbn [length]. lia. }
    2:{ cbn [length] in Hold. lia. }
    cbv [contents]. cbn [ki backing].
    assert (Hout : (prefix ++ [0]) ++ uv ++ rest = out ++ rest).
    { unfold out. rewrite <- !app_assoc. reflexivity. }
    rewrite Hout, Hlen, firstn_app, Nat.sub_diag, firstn_all. cbn [firstn].
    rewrite app_nil_r.
    eexists. split; [reflexivity|].
    unfold wroteOnly. cbn [ki backing stray]. rewrite <- Hskip. split; reflexivity.
Qed.

(** X2.  For a row without MVCC timestamp (wall time and logical counter both
    zero) and with room in the buffer, [MaterializeUserKey] returns the row's
    prefix, 0x00 and the stored untyped version as it is (nothing at all
    after the sentinel when that is empty; no length byte is added); the
    bytes of the buffer behind the result are untouched and nothing is stored
    outside the buffer. *)
Theorem MaterializeUserKey_untyped_result
    (ks : cockroachKeySeeker) (prevRow row : Z) (m : Mem) :
  iterReady m prevRow row ->
  UnsafeUints.At (ks_mvccWallTimes ks) row = 0 ->
  uint32 (UnsafeUints.At (ks_mvccLogical ks) row) = 0 ->
  len (PrefixBytes.At (ks_roachKeys ks) row) + 1
  + len (RawBytes.At (ks_untypedVersions ks) row) <= capacity m ->
  let out := PrefixBytes.At (ks_roachKeys ks) row ++ [0]
             ++ RawBytes.At (ks_untypedVersions ks) row in
  exists m',
    MaterializeUserKey ks prevRow row m = (Done out, m')
    /\ wroteOnly m m' out.
Proof.
  intros Hready Hwall Hlogical Hfit out.
  destruct (untyped_path_run ks prevRow row m Hready Hwall Hlogical Hfit)
    as (m' & Hrun & Hmem).
  exists m'. split; [exact Hrun|exact Hmem].
Qed.

Lemma MaterializeUserKey_untyped_result_witness :
  fst (MaterializeUserKey (seekerOf [key_u]) (-1) 0 (freshMem 8))
  = Done [117; 0; 118; 88].
Proof.
  destruct (MaterializeUserKey_untyped_result
              (seekerOf [key_u]) (-1) 0 (freshMem 8)) as (m' & Hrun & _).
  - intros _ _. reflexivity.
  - reflexivity.
  - reflexivity.
  - vm_compute. discriminate.
  - rewrite Hrun. reflexivity.
Defined.

Ltac store_at pre k :=
  rewrite (storeMem_at pre _ k)
    by (unfold len; cbn [app setByte length];
        unfold Bytes, byte in *; lia).

(** X3.  For a row with an MVCC timestamp and with room in the buffer,
    [MaterializeUserKey] returns the row's prefix, 0x00, the 8 big-endian
    bytes of the wall time and then, when the logical counter is zero, the
    length byte 9, else the low 4 bytes of the wall time (not the logical
    counter) and the length byte 13; the bytes of the buffer behind the
    result are untouched and nothing is stored outside the buffer. *)
Theorem MaterializeUserKey_mvcc_result
    (ks : cockroachKeySeeker) (prevRow row : Z) (m : Mem) :
  let wall := UnsafeUints.At (ks_mvccWallTimes ks) row in
  let logical := uint32 (UnsafeUints.At (ks_mvccLogical ks) row) in
  iterReady m prevRow row ->
  (wall =? 0) && (logical =? 0) = false ->
  len (PrefixBytes.At (ks_roachKeys ks) row) + mvccSuffixLen ks row
  <= capacity m ->
  let out := PrefixBytes.At (ks_roachKeys ks) row ++ [0]
             ++ crdbtest.putUint64 wall
             ++ (if logical =? 0 then [9]
                 else crdbtest.putUint32 wall ++ [13]) in
  exists m',
    MaterializeUserKey ks prevRow row m = (Done out, m')
    /\ wroteOnly m m' out.
Proof.
  intros wall logical Hready Hmvcc Hfit out.
  set (prefix := PrefixBytes.At (ks_roachKeys ks) row) in *.
  pose proof (len_nonneg prefix) as Hp.
  unfold mvccSuffixLen in Hfit. fold logical in Hfit.
  destruct (position_state ks prevRow row m Hready
              ltac:(fold prefix; destruct (logical =? 0); lia)) as (c & Hpos).
  fold prefix in Hpos.
  unfold MaterializeUserKey.
  change (if (prevRow + 1 =? row) && (0 <=? prevRow)
          then SetNext (ks_roachKeys ks) else SetAt (ks_roachKeys ks) row)
    with (position ks prevRow row).
  unfold bind at 1. rewrite Hpos.
  unfold bind at 1. unfold getLen at 1. cbn [ki buflen].
  fold wall logical. rewrite Hmvcc.
  assert (Hcap : len (prefix ++ skipn (length prefix) (backing (ki m)))
                 = capacity m).
  { unfold capacity, len in *. rewrite length_app, length_skipn.
    destruct (logical =? 0); lia. }
  unfold out. clear out.
  destruct (logical =? 0).
  - destruct (split_at 10 (skipn (length prefix) (backing (ki m))))
      as (old & rest & Htail & Hold & Hrest).
    { rewrite length_skipn. unfold capacity, len in *. lia. }
    rewrite Htail in Hcap |- *.
    do 10 (destruct old as [|? old]; [discriminate|]).
    destruct old; [|discriminate]. clear Hold.
    cbv [bind store getLen].
    store_at prefix 0%nat. store_at prefix 1%nat. store_at prefix 2%nat.
    store_at prefix 3%nat. store_at prefix 4%nat. store_at prefix 5%nat.
    store_at prefix 6%nat. store_at prefix 7%nat. store_at prefix 8%nat.
    store_at prefix 9%nat.
    cbn [setByte app ki buflen]. cbv [sliceTo contents capacity].
    cbn [ki backing].
    match goal with
    | |- context [(0 <=? ?a) && (?a <=? ?b)] =>
        destruct (Z.leb_spec 0 a); [|lia];
        destruct (Z.leb_spec a b);
          [|unfold len in *; rewrite !length_app in *; cbn [length] in *;
            unfold Bytes, byte in *; lia]
    end.
    cbn [andb].
    eexists. split.
    + f_equal. f_equal.
      replace (Z.to_nat (len prefix + 10)) with (length prefix + 10)%nat
        by (unfold len; lia).
      cbn [ki backing]. rewrite firstn_app_2. cbn [firstn].
      unfold crdbtest.putUint64. cbn [map app].
      rewrite ?Z.shiftr_0_r. reflexivity.
    + unfold wroteOnly. cbn [ki backing stray]. split; [|reflexivity].
      unfold crdbtest.putUint64. cbn [map app].
      rewrite ?Z.shiftr_0_r, <- app_assoc. f_equal. cbn [app]. do 10 f_equal.
      rewrite Hrest, skipn_skipn. f_equal.
      rewrite length_app. cbn [length]. unfold Bytes, byte in *. lia.
  - destruct (split_at 14 (skipn (length prefix) (backing (ki m))))
      as (old & rest & Htail & Hold & Hrest).
    { rewrite length_skipn. unfold capacity, len in *. lia. }
    rewrite Htail in Hcap |- *.
    do 14 (destruct old as [|? old]; [discriminate|]).
    destruct old; [|discriminate]. clear Hold.
    cbv [bind store getLen].
    store_at prefix 0%nat. store_at prefix 1%nat. store_at prefix 2%nat.
    store_at prefix 3%nat. store_at prefix 4%nat. store_at prefix 5%nat.
    store_at prefix 6%nat. store_at prefix 7%nat. store_at prefix 8%nat.
    store_at prefix 9%nat. store_at prefix 10%nat. store_at prefix 11%nat.
    store_at prefix 12%nat. store_at prefix 13%nat.
    cbn [setByte app ki buflen]. cbv [sliceTo contents capacity].
    cbn [ki backing].
    match goal with
    | |- context [(0 <=? ?a) && (?a <=? ?b)] =>
        destruct (Z.leb_spec 0 a); [|lia];
        destruct (Z.leb_spec a b);
          [|unfold len in *; rewrite !length_app in *; cbn [length] in *;
            unfold Bytes, byte in *; lia]
    end.
    cbn [andb].
    eexists. split.
    + f_equal. f_equal.
      replace (Z.to_nat (len prefix + 14)) with (length prefix + 14)%nat
        by (unfold len; lia).
      cbn [ki backing]. rewrite firstn_app_2. cbn [firstn].
      unfold crdbtest.putUint64, crdbtest.putUint32. cbn [map app].
      rewrite ?Z.shiftr_0_r. reflexivity.
    + unfold wroteOnly. cbn [ki backing stray]. split; [|reflexivity].
      unfold crdbtest.putUint64, crdbtest.putUint32. cbn [map app].
      rewrite ?Z.shiftr_0_r, <- app_assoc. f_equal. cbn [app]. do 14 f_equal.
      rewrite Hrest, skipn_skipn. f_equal.
      rewrite length_app. cbn [length]. unfold Bytes, byte in *. lia.
Qed.

Lemma MaterializeUserKey_mvcc_result_witness :
  fst (MaterializeUserKey ks_k200 (-1) 0 (freshMem 16))
  = Done [107; 0; 0; 0; 0; 0; 0; 0; 0; 200; 9].
Proof.
  destruct (MaterializeUserKey_mvcc_result ks_k200 (-1) 0 (freshMem 16))
    as (m' & Hrun & _).
  - intros _ _. reflexivity.
  - reflexivity.
  - vm_compute. discriminate.
  - rewrite Hrun. reflexivity.
Defined.

(** ** Big-endian encoding and decoding *)

Lemma lor_shiftl_byte (acc b : Z) :
  0 <= b < 256 -> Z.lor (Z.shiftl acc 8) b = acc * 256 + b.
Proof.
  intros Hb.
  assert (Hland : Z.land (Z.shiftl acc 8) b = 0).
  { apply Z.bits_inj'. intros n Hn.
    rewrite Z.land_spec, Z.bits_0.
    destruct (Z.ltb_spec n 8) as [Hlt|Hge].
    - rewrite Z.shiftl_spec_low by lia. reflexivity.
    - destruct (Z.eq_dec b 0) as [->|Hnz].
      + rewrite Z.bits_0. apply andb_false_r.
      + rewrite (Z.bits_above_log2 b n); [apply andb_false_r|lia|].
        assert (Z.log2 b < 8) by (apply Z.log2_lt_pow2; lia). lia. }
  rewrite <- Z.lxor_lor, <- Z.add_nocarry_lxor by exact Hland.
  rewrite Z.shiftl_mul_pow2 by lia. reflexivity.
Qed.

Lemma to_byte_range (z : Z) : 0 <= to_byte z < 256.
Proof. unfold to_byte. apply Z.mod_pos_bound. lia. Qed.

(** [binary.BigEndian.Uint64] reads back the 8 bytes written for a 64-bit
    value, whatever follows them. *)
Lemma Uint64_putUint64 (w : Z) (rest : Bytes) :
  0 <= w < 2 ^ 64 ->
  binary.Uint64 (crdbtest.putUint64 w ++ rest) = w.
Proof.
  change (2 ^ 64) with 18446744073709551616. intros Hw.
  unfold binary.Uint64, binary.be, crdbtest.putUint64.
  cbn [map app firstn fold_left].
  rewrite !lor_shiftl_byte by apply to_byte_range.
  unfold to_byte. rewrite !Z.shiftr_div_pow2 by lia.
  rewrite Z.pow_0_r, Z.div_1_r.
  change (2 ^ 8) with 256.
  replace (w / 2 ^ 16) with (w / 256 / 256)
    by (rewrite Z.div_div by lia; reflexivity).
  replace (w / 2 ^ 24) with (w / 256 / 256 / 256)
    by (rewrite !Z.div_div by lia; reflexivity).
  replace (w / 2 ^ 32) with (w / 256 / 256 / 256 / 256)
    by (rewrite !Z.div_div by lia; reflexivity).
  replace (w / 2 ^ 40) with (w / 256 / 256 / 256 / 256 / 256)
    by (rewrite !Z.div_div by lia; reflexivity).
  replace (w / 2 ^ 48) with (w / 256 / 256 / 256 / 256 / 256 / 256)
    by (rewrite !Z.div_div by lia; reflexivity).
  replace (w / 2 ^ 56) with (w / 256 / 256 / 256 / 256 / 256 / 256 / 256)
    by (rewrite !Z.div_div by lia; reflexivity).
  pose proof (Z.div_mod w 256 ltac:(lia)) as E1. set (q1 := w / 256) in *.
  pose proof (Z.div_mod q1 256 ltac:(lia)) as E2. set (q2 := q1 / 256) in *.
  pose proof (Z.div_mod q2 256 ltac:(lia)) as E3. set (q3 := q2 / 256) in *.
  pose proof (Z.div_mod q3 256 ltac:(lia)) as E4. set (q4 := q3 / 256) in *.
  pose proof (Z.div_mod q4 256 ltac:(lia)) as E5. set (q5 := q4 / 256) in *.
  pose proof (Z.div_mod q5 256 ltac:(lia)) as E6. set (q6 := q5 / 256) in *.
  pose proof (Z.div_mod q6 256 ltac:(lia)) as E7. set (q7 := q6 / 256) in *.
  assert (H7 : q7 mod 256 = q7).
  { apply Z.mod_small. unfold q7, q6, q5, q4, q3, q2, q1. split.
    - repeat (apply Z.div_pos; [|lia]). lia.
    - repeat (apply Z.div_lt_upper_bound; [lia|]). lia. }
  lia.
Qed.

(** ** More on the searches of [seekGEOnSuffix] *)

Lemma bytes_Compare_ge_trans (a : Bytes) : forall b c,
  0 <= bytes.Compare a b -> 0 <= bytes.Compare b c -> 0 <= bytes.Compare a c.
Proof.
  induction a as [|x a IH]; intros [|y b] [|z c]; cbn [bytes.Compare];
    try lia.
  destruct (x <? y) eqn:Hxy; [lia|].
  destruct (y <? z) eqn:Hyz; [destruct (z <? y); lia|].
  apply Z.ltb_ge in Hxy, Hyz.
  destruct (z <? y) eqn:Hzy.
  - apply Z.ltb_lt in Hzy. intros _ _.
    destruct (Z.ltb_spec x z); [lia|].
    destruct (Z.ltb_spec z x); lia.
  - apply Z.ltb_ge in Hzy. assert (y = z) by lia. subst z.
    destruct (y <? x) eqn:Hyx.
    + intros _ _. destruct (Z.ltb_spec x y); lia.
    + apply Z.ltb_ge in Hyx. assert (x = y) by lia. subst y.
      rewrite Z.ltb_irrefl. apply IH.
Qed.

(** X5.  On a run whose untyped versions ascend, a seek with an untyped
    suffix (any length other than 0, 9, 13 and 14) lands on the first row
    of the run whose untyped version is at least the seek suffix, or on the
    end of the run: the comparison fails on every row before the result and
    holds on every row from it on. *)
Theorem seekGEOnSuffix_untyped_run
    (ks : cockroachKeySeeker) (r : DataBlockReader) (idx : Z) (s : Bytes) :
  ks_reader ks = Some r ->
  0 <= idx < len (prefixChanged r) ->
  len (prefixChanged r) < 2 ^ 63 ->
  len s <> 0 -> len s <> 9 -> len s <> 13 -> len s <> 14 ->
  let u := Bitmap.SeekSetBitGE (prefixChanged r) (idx + 1) in
  ascendingUntyped ks idx u ->
  exists row,
    seekGEOnSuffix ks idx s = Some row
    /\ idx <= row <= u
    /\ (forall i, idx <= i < row ->
          bytes.Compare (RawBytes.At (ks_untypedVersions ks) i) s < 0)
    /\ (forall j, row <= j < u ->
          0 <= bytes.Compare (RawBytes.At (ks_untypedVersions ks) j) s).
Proof.
  intros Hr Hidx Hn H0 H9 H13 H14 u Hrun.
  assert (Hu : idx + 1 <= u <= len (prefixChanged r))
    by (apply SeekSetBitGE_bounds; lia).
  set (f := untypedGE ks s).
  exists (search f idx u).
  destruct (search_spec f idx u) as (R1 & R2 & R3); try lia.
  assert (Hmono : forall i j, idx <= i -> i <= j -> j < u ->
                    f i = true -> f j = true).
  { intros i j Hi Hij Hj Hfi. unfold f, untypedGE in *.
    apply Z.leb_le in Hfi. apply Z.leb_le.
    apply (bytes_Compare_ge_trans _ (RawBytes.At (ks_untypedVersions ks) i));
      [apply Hrun; lia|exact Hfi]. }
  split; [|split; [exact R1|split]].
  - unfold seekGEOnSuffix, withSynthetic, withLogical, withWall.
    rewrite Hr. fold u.
    change (9 + 4 + 1) with 14. change (9 + 4) with 13.
    apply Z.eqb_neq in H0, H9, H13, H14.
    rewrite H0, H9, H13, H14. reflexivity.
  - intros i Hi.
    assert (Hf : f i = false)
      by (apply (search_least f idx u); try lia; exact Hmono).
    unfold f, untypedGE in Hf. apply Z.leb_gt in Hf. exact Hf.
  - intros j Hj.
    assert (Hf : f j = true).
    { apply (Hmono (search f idx u) j); try lia. apply R2. lia. }
    unfold f, untypedGE in Hf. apply Z.leb_le in Hf. exact Hf.
Qed.

Lemma seekGEOnSuffix_untyped_run_witness :
  exists row, seekGEOnSuffix ks_u2 0 [98; 98; 3] = Some row /\ 0 <= row <= 2.
Proof.
  destruct (seekGEOnSuffix_untyped_run ks_u2
              (finishBlock (writeKeys [key_u_a; key_u_c])) 0 [98; 98; 3])
    as (row & Hrow & Hrange & _).
  - reflexivity.
  - vm_compute. split; [discriminate|reflexivity].
  - vm_compute. reflexivity.
  - vm_compute. discriminate.
  - vm_compute. discriminate.
  - vm_compute. discriminate.
  - vm_compute. discriminate.
  - intros i j Hi Hij Hj.
    change (Bitmap.SeekSetBitGE
              (prefixChanged (finishBlock (writeKeys [key_u_a; key_u_c])))
              (0 + 1)) with 2 in Hj.
    assert (Hi' : i = 0 \/ i = 1) by lia.
    assert (Hj' : j = 0 \/ j = 1) by lia.
    destruct Hi' as [-> | ->]; destruct Hj' as [-> | ->];
      try lia; vm_compute; discriminate.
  - exists row. split; [exact Hrow|].
    change (Bitmap.SeekSetBitGE
              (prefixChanged (finishBlock (writeKeys [key_u_a; key_u_c])))
              (0 + 1)) with 2 in Hrange.
    exact Hrange.
Defined.

Lemma mvccGE_tsLe (ks : cockroachKeySeeker) (w l h : Z) :
  mvccGE ks w l h = true
  <-> tsLe (UnsafeUints.At (ks_mvccWallTimes ks) h)
        (uint32 (UnsafeUints.At (ks_mvccLogical ks) h)) w l.
Proof.
  unfold mvccGE, tsLe.
  rewrite orb_true_iff, andb_true_iff, Z.ltb_lt, Z.eqb_eq, Z.leb_le.
  reflexivity.
Qed.

(** X6.  On a run of MVCC rows held newest first, a seek with an MVCC suffix
    (length 9, 13 or 14) lands on the first row whose (wall time, logical
    counter) is at most the seek timestamp, or on the end of the run: every
    row before the result is newer than the seek timestamp and every row
    from it on is at most the seek timestamp. *)
Theorem seekGEOnSuffix_newest_first_run
    (ks : cockroachKeySeeker) (r : DataBlockReader) (idx : Z) (s : Bytes) :
  ks_reader ks = Some r ->
  0 <= idx < len (prefixChanged r) ->
  len (prefixChanged r) < 2 ^ 63 ->
  len s = 9 \/ len s = 13 \/ len s = 14 ->
  let u := Bitmap.SeekSetBitGE (prefixChanged r) (idx + 1) in
  let wall := binary.Uint64 s in
  let logical := if len s =? 9 then 0 else binary.Uint32 (slice_from s 8) in
  (forall i j, idx <= i -> i <= j -> j < u ->
     tsLe (UnsafeUints.At (ks_mvccWallTimes ks) j)
       (uint32 (UnsafeUints.At (ks_mvccLogical ks) j))
       (UnsafeUints.At (ks_mvccWallTimes ks) i)
       (uint32 (UnsafeUints.At (ks_mvccLogical ks) i))) ->
  exists row,
    seekGEOnSuffix ks idx s = Some row
    /\ idx <= row <= u
    /\ (forall i, idx <= i < row ->
          ~ tsLe (UnsafeUints.At (ks_mvccWallTimes ks) i)
              (uint32 (UnsafeUints.At (ks_mvccLogical ks) i)) wall logical)
    /\ (forall j, row <= j < u ->
          tsLe (UnsafeUints.At (ks_mvccWallTimes ks) j)
            (uint32 (UnsafeUints.At (ks_mvccLogical ks) j)) wall logical).
Proof.
  intros Hr Hidx Hn Hlen u wall logical Hrun. subst wall logical.
  destruct (seekGEOnSuffix_mvcc_run ks r idx s Hr Hidx Hn Hlen)
    as (row & Hrow & Hrange & Hbefore & Hafter).
  { intros i j Hi Hij Hj. apply mvccGE_tsLe. apply Hrun; assumption. }
  exists row. split; [exact Hrow|]. split; [exact Hrange|]. split.
  - intros i Hi Hle. apply mvccGE_tsLe in Hle.
    rewrite (Hbefore i Hi) in Hle. discriminate.
  - intros j Hj. apply mvccGE_tsLe. apply Hafter. exact Hj.
Qed.

Lemma seekGEOnSuffix_newest_first_run_witness :
  exists row,
    seekGEOnSuffix ks_k3 0 [0; 0; 0; 0; 0; 0; 0; 175; 9] = Some row
    /\ 0 <= row <= 3.
Proof.
  destruct (seekGEOnSuffix_newest_first_run ks_k3
              (finishBlock (writeKeys [key_k200; key_k150; key_k100])) 0
              [0; 0; 0; 0; 0; 0; 0; 175; 9])
    as (row & Hrow & Hrange & _).
  - reflexivity.
  - vm_compute. split; [discriminate|reflexivity].
  - vm_compute. reflexivity.
  - left. reflexivity.
  - intros i j Hi Hij Hj.
    change (Bitmap.SeekSetBitGE
              (prefixChanged
                 (finishBlock (writeKeys [key_k200; key_k150; key_k100])))
              (0 + 1)) with 3 in Hj.
    assert (Hi' : i = 0 \/ i = 1 \/ i = 2) by lia.
    assert (Hj' : j = 0 \/ j = 1 \/ j = 2) by lia.
    destruct Hi' as [-> | [-> | ->]]; destruct Hj' as [-> | [-> | ->]];
      try lia; vm_compute; intuition congruence.
  - exists row. split; [exact Hrow|].
    change (Bitmap.SeekSetBitGE
              (prefixChanged
                 (finishBlock (writeKeys [key_k200; key_k150; key_k100])))
              (0 + 1)) with 3 in Hrange.
    exact Hrange.
Defined.








(** ** Seeking a materialized key *)

Lemma sentinelIndex_app (p rest : Bytes) :
  Forall (fun b => b <> 0) p ->
  crdbtest.sentinelIndex (p ++ 0 :: rest) = len p.
Proof.
  unfold len. induction 1 as [|b p Hb Hp IH]; cbn [app crdbtest.sentinelIndex length].
  - reflexivity.
  - apply Z.eqb_neq in Hb. rewrite Hb, IH, Nat2Z.inj_succ. lia.
Qed.

Lemma split_prefixed_key (p suffix : Bytes) :
  Forall (fun b => b <> 0) p ->
  prefixOf (p ++ [0] ++ suffix) = p
  /\ slice_from (p ++ [0] ++ suffix) (crdbtest.Split (p ++ [0] ++ suffix))
     = suffix.
Proof.
  intros Hp. unfold prefixOf, crdbtest.Split, slice, slice_from.
  cbn [app]. rewrite (sentinelIndex_app p suffix Hp).
  rewrite Z.add_simpl_r, Z.sub_0_r. cbn [Z.to_nat skipn].
  unfold len. split.
  - rewrite Nat2Z.id, firstn_app, Nat.sub_diag, firstn_all. cbn [firstn].
    apply app_nil_r.
  - replace (Z.to_nat (Z.of_nat (length p) + 1)) with (length (p ++ [0]))
      by (rewrite length_app; cbn [length]; lia).
    change (p ++ 0 :: suffix) with (p ++ [0] ++ suffix).
    rewrite app_assoc. apply skipn_app_exact. reflexivity.
Qed.

(** X8.  Seeking the key materialized for a row finds that row again, for an
    MVCC row without logical counter: when the rows of its prefix are held
    newest first, the rows before it are strictly newer and the prefix
    search lands on the first row of the prefix, [SeekGE] of the bytes
    [MaterializeUserKey] returned for row [i] is [(i, true)]. *)
Theorem SeekGE_finds_materialized_row
    (ks : cockroachKeySeeker) (r : DataBlockReader) (idx i prevRow : Z)
    (m : Mem) (boundRow searchDir : Z) :
  let u := Bitmap.SeekSetBitGE (prefixChanged r) (idx + 1) in
  let p := PrefixBytes.At (ks_roachKeys ks) i in
  let wall := UnsafeUints.At (ks_mvccWallTimes ks) i in
  ks_reader ks = Some r ->
  0 <= idx < len (prefixChanged r) ->
  len (prefixChanged r) < 2 ^ 63 ->
  idx <= i < u ->
  Forall (fun b => b <> 0) p ->
  PrefixBytes.Search (ks_roachKeys ks) p = (idx, true) ->
  0 < wall < 2 ^ 64 ->
  uint32 (UnsafeUints.At (ks_mvccLogical ks) i) = 0 ->
  (forall j k, idx <= j -> j <= k -> k < u ->
     tsLe (UnsafeUints.At (ks_mvccWallTimes ks) k)
       (uint32 (UnsafeUints.At (ks_mvccLogical ks) k))
       (UnsafeUints.At (ks_mvccWallTimes ks) j)
       (uint32 (UnsafeUints.At (ks_mvccLogical ks) j))) ->
  (forall j, idx <= j < i ->
     ~ tsLe (UnsafeUints.At (ks_mvccWallTimes ks) j)
         (uint32 (UnsafeUints.At (ks_mvccLogical ks) j)) wall 0) ->
  iterReady m prevRow i ->
  len p + 10 <= capacity m ->
  exists out,
    fst (MaterializeUserKey ks prevRow i m) = Done out
    /\ SeekGE ks out boundRow searchDir = Some (i, true).
Proof.
  intros u p wall Hr Hidx Hn Hi Hp Hsearch Hwall Hlogical Hrun Hstrict
    Hready Hfit.
  pose proof (len_nonneg p) as Hlp.
  destruct (positioned_prefix ks prevRow i m Hready ltac:(fold p; lia))
    as [Hlen Hback].
  fold p in Hlen, Hback.
  pose proof (MaterializeUserKey_mvcc_layout ks prevRow i m) as Hout.
  cbv zeta in Hout. fold wall in Hout.
  unfold mvccSuffixLen in Hout. rewrite Hlogical, Hlen, Hback in Hout.
  cbn [Z.eqb] in Hout.
  rewrite andb_true_r in Hout.
  assert (Hw0 : (wall =? 0) = false) by (apply Z.eqb_neq; lia).
  specialize (Hout Hw0 Hfit).
  unfold len in Hout. rewrite Nat2Z.id, firstn_app, Nat.sub_diag, firstn_all in Hout.
  cbn [firstn] in Hout. rewrite app_nil_r in Hout.
  set (suffix := crdbtest.putUint64 wall ++ [9]) in *.
  exists (p ++ [0] ++ suffix). split; [exact Hout|].
  destruct (split_prefixed_key p suffix Hp) as [Hpre Hsuf].
  unfold SeekGE. fold (prefixOf (p ++ [0] ++ suffix)).
  rewrite Hpre, Hsearch, Hsuf.
  destruct (seekGEOnSuffix_mvcc_run ks r idx suffix Hr Hidx Hn)
    as (row & Hrow & Hrange & Hbefore & Hafter).
  { left. reflexivity. }
  { intros j k Hj Hjk Hk. apply mvccGE_tsLe. apply Hrun; assumption. }
  fold u in Hrange, Hafter.
  assert (Hlen9 : (len suffix =? 9) = true) by reflexivity.
  rewrite Hlen9 in Hbefore, Hafter.
  assert (Hdec : binary.Uint64 suffix = wall).
  { unfold suffix. apply Uint64_putUint64. lia. }
  rewrite Hdec in Hbefore, Hafter.
  assert (Hself : mvccGE ks wall 0 i = true).
  { apply mvccGE_tsLe. right. fold wall. rewrite Hlogical. split; [reflexivity|lia]. }
  assert (Hrow_le : row <= i).
  { destruct (Z.le_gt_cases row i) as [Hle|Hgt]; [exact Hle|].
    rewrite (Hbefore i ltac:(lia)) in Hself. discriminate. }
  assert (Hrow_ge : i <= row).
  { destruct (Z.le_gt_cases i row) as [Hle|Hgt]; [exact Hle|].
    exfalso. apply (Hstrict row ltac:(lia)).
    apply mvccGE_tsLe. apply Hafter. lia. }
  rewrite Hrow. replace row with i by lia. reflexivity.
Qed.

Lemma SeekGE_finds_materialized_row_witness :
  exists out,
    fst (MaterializeUserKey ks_k3 0 1 (snd (position ks_k3 (-1) 0 (freshMem 16))))
    = Done out
    /\ SeekGE ks_k3 out 0 0 = Some (1, true).
Proof.
  apply (SeekGE_finds_materialized_row ks_k3
           (finishBlock (writeKeys [key_k200; key_k150; key_k100])) 0 1 0).
  - reflexivity.
  - vm_compute. split; [discriminate|reflexivity].
  - vm_compute. reflexivity.
  - vm_compute. split; [discriminate|reflexivity].
  - repeat constructor. discriminate.
  - reflexivity.
  - vm_compute. split; reflexivity.
  - reflexivity.
  - intros j k Hj Hjk Hk.
    change (Bitmap.SeekSetBitGE
              (prefixChanged
                 (finishBlock (writeKeys [key_k200; key_k150; key_k100])))
              (0 + 1)) with 3 in Hk.
    assert (Hj' : j = 0 \/ j = 1 \/ j = 2) by lia.
    assert (Hk' : k = 0 \/ k = 1 \/ k = 2) by lia.
    destruct Hj' as [-> | [-> | ->]]; destruct Hk' as [-> | [-> | ->]];
      try lia; vm_compute; intuition congruence.
  - intros j Hj. assert (j = 0) by lia. subst j.
    vm_compute. intuition congruence.
  - intros _ _. reflexivity.
  - vm_compute. discriminate.
Defined.

(** ** Decoding the keys that [AppendTimestamp] builds *)

Lemma Uint32_putUint32 (l : Z) (rest : Bytes) :
  0 <= l < 2 ^ 32 ->
  binary.Uint32 (crdbtest.putUint32 l ++ rest) = l.
Proof.
  change (2 ^ 32) with 4294967296. intros Hl.
  unfold binary.Uint32, binary.be, crdbtest.putUint32.
  cbn [map app firstn fold_left].
  rewrite !lor_shiftl_byte by apply to_byte_range.
  unfold to_byte. rewrite !Z.shiftr_div_pow2 by lia.
  rewrite Z.pow_0_r, Z.div_1_r.
  change (2 ^ 8) with 256.
  replace (l / 2 ^ 16) with (l / 256 / 256)
    by (rewrite Z.div_div by lia; reflexivity).
  replace (l / 2 ^ 24) with (l / 256 / 256 / 256)
    by (rewrite !Z.div_div by lia; reflexivity).
  pose proof (Z.div_mod l 256 ltac:(lia)) as E1. set (q1 := l / 256) in *.
  pose proof (Z.div_mod q1 256 ltac:(lia)) as E2. set (q2 := q1 / 256) in *.
  pose proof (Z.div_mod q2 256 ltac:(lia)) as E3. set (q3 := q2 / 256) in *.
  assert (H3 : q3 mod 256 = q3).
  { apply Z.mod_small. unfold q3, q2, q1. split.
    - repeat (apply Z.div_pos; [|lia]). lia.
    - repeat (apply Z.div_lt_upper_bound; [lia|]). lia. }
  lia.
Qed.

Lemma nth_last_index (s : Bytes) :
  s <> [] -> index s (len s - 1) = last s 0.
Proof.
  unfold index, len. intros Hne.
  replace (Z.to_nat (Z.of_nat (length s) - 1)) with (Nat.pred (length s))
    by lia.
  clear Hne. induction s as [|x s IH]; [reflexivity|].
  destruct s as [|y s]; [reflexivity|].
  cbn [length Nat.pred nth] in *. rewrite IH. reflexivity.
Qed.

Lemma last_app_cons (a : Bytes) (x : byte) (b : Bytes) :
  last (a ++ x :: b) 0 = last (x :: b) 0.
Proof.
  induction a as [|y a IH]; [reflexivity|].
  cbn [app]. destruct (a ++ x :: b) eqn:E.
  - destruct a; discriminate.
  - rewrite <- IH. reflexivity.
Qed.

(** The parts [DecodeEngineKey] cuts a key into, for a key made of a prefix
    without 0x00, the sentinel and a suffix region. *)
Lemma decode_parts (p suffix : Bytes) :
  Forall (fun b => b <> 0) p ->
  let key := p ++ [0] ++ suffix in
  slice key 0 (crdbtest.sentinelIndex key) = p
  /\ slice_from key (crdbtest.sentinelIndex key + 1) = suffix
  /\ index key (len key - 1) = last (0 :: suffix) 0.
Proof.
  intros Hp key.
  destruct (split_prefixed_key p suffix Hp) as [Hpre Hsuf].
  unfold prefixOf, crdbtest.Split in Hpre, Hsuf.
  rewrite Z.add_simpl_r in Hpre. fold key in Hpre, Hsuf.
  split; [exact Hpre|]. split; [exact Hsuf|].
  rewrite nth_last_index by (unfold key; destruct p; discriminate).
  apply last_app_cons.
Qed.

Lemma mvccKey_shape (p : Bytes) (w l : Z) :
  mvccKey p w l
  = p ++ [0]
    ++ (if (w =? 0) && (l =? 0) then []
        else if l =? 0 then crdbtest.putUint64 w ++ [9]
        else crdbtest.putUint64 w ++ crdbtest.putUint32 l ++ [13]).
Proof.
  unfold mvccKey, crdbtest.AppendTimestamp.
  destruct ((w =? 0) && (l =? 0)).
  - rewrite app_nil_r. reflexivity.
  - destruct (l =? 0); rewrite <- app_assoc; reflexivity.
Qed.

Lemma DecodeEngineKey_prefixed (p suffix : Bytes) :
  Forall (fun b => b <> 0) p ->
  crdbtest.DecodeEngineKey (p ++ [0] ++ suffix)
  = (if last (0 :: suffix) 0 =? 0 then (p, [], 0, 0)
     else if last (0 :: suffix) 0 =? 9 then
       (p, [], binary.Uint64 (slice suffix 0 (len suffix - 1)), 0)
     else if last (0 :: suffix) 0 =? 13 then
       (p, [], binary.Uint64 (slice suffix 0 (len suffix - 1)),
        binary.Uint32 (slice_from (slice suffix 0 (len suffix - 1)) 8))
     else (p, slice suffix 0 (len suffix - 1), 0, 0)).
Proof.
  intros Hp.
  destruct (decode_parts p suffix Hp) as (Hpre & Hreg & Htrail).
  unfold crdbtest.DecodeEngineKey. cbv zeta in *.
  rewrite Hpre, Hreg, Htrail. reflexivity.
Qed.

(** [DecodeEngineKey] gives back the fields an MVCC or bare-prefix key was
    built from. *)
Lemma DecodeEngineKey_mvccKey (p : Bytes) (w l : Z) :
  validMVCC (p, w, l) ->
  crdbtest.DecodeEngineKey (mvccKey p w l) = (p, [], w, l).
Proof.
  intros (Hp & Hw & Hl).
  rewrite mvccKey_shape.
  destruct (Z.eqb_spec l 0) as [->|Hl0].
  - destruct (Z.eqb_spec w 0) as [->|Hw0]; cbn [andb].
    + rewrite DecodeEngineKey_prefixed by exact Hp. reflexivity.
    + rewrite DecodeEngineKey_prefixed by exact Hp.
      assert (Hlast : last (0 :: crdbtest.putUint64 w ++ [9]) 0 = 9)
        by reflexivity.
      rewrite Hlast. cbn [Z.eqb].
      assert (Hpay : slice (crdbtest.putUint64 w ++ [9]) 0
                       (len (crdbtest.putUint64 w ++ [9]) - 1)
                     = crdbtest.putUint64 w) by reflexivity.
      rewrite Hpay.
      rewrite <- (app_nil_r (crdbtest.putUint64 w)).
      rewrite Uint64_putUint64 by exact Hw. reflexivity.
  - rewrite andb_false_r.
    rewrite DecodeEngineKey_prefixed by exact Hp.
    assert (Hlast : last (0 :: crdbtest.putUint64 w ++ crdbtest.putUint32 l ++ [13]) 0
                    = 13) by reflexivity.
    rewrite Hlast. cbn [Z.eqb].
    assert (Hpay : slice (crdbtest.putUint64 w ++ crdbtest.putUint32 l ++ [13]) 0
                     (len (crdbtest.putUint64 w ++ crdbtest.putUint32 l ++ [13]) - 1)
                   = crdbtest.putUint64 w ++ crdbtest.putUint32 l) by reflexivity.
    rewrite Hpay.
    assert (Hlog : slice_from (crdbtest.putUint64 w ++ crdbtest.putUint32 l) 8
                   = crdbtest.putUint32 l) by reflexivity.
    rewrite Hlog.
    rewrite Uint64_putUint64 by exact Hw.
    rewrite <- (app_nil_r (crdbtest.putUint32 l)).
    rewrite Uint32_putUint32 by exact Hl. reflexivity.
Qed.

(** ** Rows of the key writer *)

Lemma nth_setNth_same (b : UintBuilder.t) : forall n v,
  nth n (UintBuilder.setNth b n v) 0 = v.
Proof.
  induction b as [|x b IH]; intros n v.
  - induction n as [|n IHn]; cbn [UintBuilder.setNth nth]; auto.
  - destruct n; cbn [UintBuilder.setNth nth]; auto.
Qed.

Lemma nth_setNth_other (b : UintBuilder.t) : forall n k v,
  n <> k -> nth k (UintBuilder.setNth b n v) 0 = nth k b 0.
Proof.
  induction b as [|x b IH]; intros n k v Hne.
  - revert k Hne. induction n as [|n IHn]; intros k Hne;
      cbn [UintBuilder.setNth].
    + destruct k; [congruence|]. cbn [nth]. destruct k; reflexivity.
    + destruct k; [reflexivity|]. cbn [nth].
      rewrite IHn by congruence. destruct k; reflexivity.
  - destruct n, k; cbn [UintBuilder.setNth nth]; try congruence; auto.
Qed.

Lemma length_setNth (b : UintBuilder.t) : forall n v,
  length (UintBuilder.setNth b n v) = Nat.max (length b) (S n).
Proof.
  induction b as [|x b IH]; intros n v.
  - induction n as [|n IHn]; cbn [UintBuilder.setNth length]; [reflexivity|].
    rewrite IHn. cbn [length]. lia.
  - destruct n; cbn [UintBuilder.setNth length]; [lia|].
    rewrite IH. lia.
Qed.

Lemma nth_beyond_zero (b : list Z) (k : nat) :
  (length b <= k)%nat -> nth k b 0 = 0.
Proof. intros H. apply nth_overflow. exact H. Qed.

(** The columns of a writer after [WriteKey] at row [row]. *)
Lemma WriteKey_columns (kw : cockroachKeyWriter) (row pl sh : Z) (key : Bytes) :
  let '(roachKey, untypedVersion, wallTime, logicalTime) :=
    crdbtest.DecodeEngineKey key in
  kw_roachKeys (WriteKey kw row key pl sh) = kw_roachKeys kw ++ [roachKey]
  /\ kw_untypedVersions (WriteKey kw row key pl sh)
     = kw_untypedVersions kw ++ [untypedVersion]
  /\ kw_wallTimes (WriteKey kw row key pl sh)
     = UintBuilder.setNth (kw_wallTimes kw) (Z.to_nat row) wallTime
  /\ kw_logicalTimes (WriteKey kw row key pl sh)
     = (if 0 <? logicalTime
        then UintBuilder.setNth (kw_logicalTimes kw) (Z.to_nat row) logicalTime
        else kw_logicalTimes kw).
Proof.
  unfold WriteKey.
  destruct (crdbtest.DecodeEngineKey key) as [[[rk uv] w] l].
  repeat split; reflexivity.
Qed.

(** X9.  [WriteKey] at the next row index adds one row and changes none of
    the rows written before: the columns stay aligned and [MaterializeKey]
    of every earlier row returns what it returned before. *)
Theorem WriteKey_keeps_earlier_rows
    (kw : cockroachKeyWriter) (key dst : Bytes) (pl sh i : Z) :
  rowsAligned kw ->
  0 <= i < PrefixBytesBuilder.Rows (kw_roachKeys kw) ->
  let kw' := WriteKey kw (PrefixBytesBuilder.Rows (kw_roachKeys kw)) key pl sh in
  rowsAligned kw'
  /\ PrefixBytesBuilder.Rows (kw_roachKeys kw')
     = PrefixBytesBuilder.Rows (kw_roachKeys kw) + 1
  /\ MaterializeKey kw' dst i = MaterializeKey kw dst i.
Proof.
  intros [Hu Hl] Hi kw'.
  pose proof (WriteKey_columns kw (PrefixBytesBuilder.Rows (kw_roachKeys kw))
                pl sh key) as Hcols.
  fold kw' in Hcols.
  destruct (crdbtest.DecodeEngineKey key) as [[[rk uv] w] l].
  destruct Hcols as (Hrk & Huv & Hw & Hlg).
  unfold PrefixBytesBuilder.Rows, len in *.
  rewrite Nat2Z.id in Hw, Hlg.
  assert (Hi' : (Z.to_nat i < length (kw_roachKeys kw))%nat) by lia.
  split; [|split].
  - unfold rowsAligned. rewrite Hrk, Huv, Hlg, !length_app. cbn [length].
    split; [lia|].
    destruct (0 <? l); [rewrite length_setNth|]; lia.
  - rewrite Hrk, length_app. cbn [length]. lia.
  - unfold MaterializeKey, PrefixBytesBuilder.UnsafeGet,
      RawBytesBuilder.UnsafeGet, UintBuilder.Get.
    rewrite Hrk, Huv, Hw, Hlg.
    rewrite !app_nth1 by lia.
    rewrite nth_setNth_other by lia.
    destruct (0 <? l); [rewrite nth_setNth_other by lia|]; reflexivity.
Qed.

Lemma WriteKey_keeps_earlier_rows_witness :
  MaterializeKey (writeKeys [key_k200; key_k150]) [] 0
  = MaterializeKey (writeKeys [key_k200]) [] 0.
Proof.
  destruct (WriteKey_keeps_earlier_rows (writeKeys [key_k200]) key_k150 []
              (crdbtest.Split key_k150) 2 0) as (_ & _ & H).
  - split; [reflexivity|vm_compute; repeat constructor].
  - vm_compute. split; [discriminate|reflexivity].
  - exact H.
Defined.

(** ** Blocks of MVCC and bare-prefix keys *)

Lemma writeKeys_snoc (keys : list Bytes) (key : Bytes) :
  writeKeys (keys ++ [key]) = addKey (writeKeys keys) key.
Proof. unfold writeKeys. rewrite fold_left_app. reflexivity. Qed.

(** The columns the writer holds after a sequence of MVCC and bare-prefix
    keys: row [i] carries the prefix, the wall time and the logical counter
    of the [i]-th key, and no untyped version. *)
Lemma writeKeys_columns (specs : list (Bytes * Z * Z)) :
  Forall validMVCC specs ->
  let kw := writeKeys (map keyOf specs) in
  kw_roachKeys kw = map (fun k => fst (fst k)) specs
  /\ kw_untypedVersions kw = map (fun _ => []) specs
  /\ (length (kw_logicalTimes kw) <= length specs)%nat
  /\ (forall i, (i < length specs)%nat ->
        nth i (kw_wallTimes kw) 0 = snd (fst (nth i specs ([], 0, 0)))
        /\ nth i (kw_logicalTimes kw) 0 = snd (nth i specs ([], 0, 0))).
Proof.
  induction specs as [|k specs IH] using rev_ind; intros Hvalid kw.
  - split; [reflexivity|]. split; [reflexivity|]. split; [apply le_n|].
    intros i Hi. cbn [length] in Hi. lia.
  - apply Forall_app in Hvalid. destruct Hvalid as [Hspecs Hk].
    inversion Hk as [|k' l' Hvk _]; subst.
    specialize (IH Hspecs). cbv zeta in IH.
    destruct IH as (Hrk & Huv & Hlen & Hrows).
    unfold kw. rewrite map_app. cbn [map]. rewrite writeKeys_snoc.
    set (kw0 := writeKeys (map keyOf specs)) in *.
    unfold addKey.
    pose proof (WriteKey_columns kw0 (PrefixBytesBuilder.Rows (kw_roachKeys kw0))
                  (PrefixLen (ComparePrev kw0 (keyOf k)))
                  (CommonPrefixLen (ComparePrev kw0 (keyOf k))) (keyOf k))
      as Hcols.
    destruct k as [[p w] l]. cbn [keyOf] in *.
    rewrite (DecodeEngineKey_mvccKey p w l Hvk) in Hcols.
    destruct Hcols as (Crk & Cuv & Cw & Cl).
    assert (Hn : Z.to_nat (PrefixBytesBuilder.Rows (kw_roachKeys kw0))
                 = length specs).
    { unfold PrefixBytesBuilder.Rows, len. rewrite Hrk, length_map. lia. }
    rewrite Hn in Cw, Cl.
    destruct Hvk as (_ & _ & Hl).
    rewrite Crk, Cuv, Cw, Cl, Hrk, Huv, !map_app. cbn [map fst snd].
    split; [reflexivity|]. split; [reflexivity|]. split.
    + rewrite length_app. cbn [length].
      destruct (0 <? l); [rewrite length_setNth|]; lia.
    + intros i Hi. rewrite length_app in Hi. cbn [length] in Hi.
      destruct (Nat.eq_dec i (length specs)) as [->|Hne].
      * rewrite nth_middle, nth_setNth_same. cbn [fst snd]. split; [reflexivity|].
        destruct (Z.ltb_spec 0 l).
        -- apply nth_setNth_same.
        -- rewrite nth_beyond_zero by lia. lia.
      * rewrite app_nth1 by lia.
        rewrite nth_setNth_other by lia.
        destruct (Hrows i ltac:(lia)) as [Hw Hlg].
        split; [exact Hw|].
        destruct (0 <? l); [rewrite nth_setNth_other by lia|]; exact Hlg.
Qed.

Lemma AppendTimestamp_app (dst x : Bytes) (w l : Z) :
  crdbtest.AppendTimestamp (dst ++ x) w l
  = dst ++ crdbtest.AppendTimestamp x w l.
Proof.
  unfold crdbtest.AppendTimestamp.
  destruct ((w =? 0) && (l =? 0)); [reflexivity|].
  destruct (l =? 0); rewrite <- app_assoc; reflexivity.
Qed.

Lemma uint32_small (l : Z) : 0 <= l < 2 ^ 32 -> uint32 l = l.
Proof. intros H. unfold uint32. apply Z.mod_small. exact H. Qed.

Lemma nth_map_lt {A B : Type} (f : A -> B) (l : list A) (i : nat) (d : A) (d' : B) :
  (i < length l)%nat -> nth i (map f l) d' = f (nth i l d).
Proof.
  intros Hi. rewrite (nth_indep _ d' (f d)) by (rewrite length_map; exact Hi).
  apply map_nth.
Qed.

(** X10.  Round trip through the writer: after a sequence of MVCC and
    bare-prefix keys (no untyped suffix) was handed to the writer,
    [MaterializeKey] of row [i] appends exactly the [i]-th key to [dst]. *)
Theorem MaterializeKey_returns_written_key
    (specs : list (Bytes * Z * Z)) (dst : Bytes) (i : Z) :
  Forall validMVCC specs ->
  0 <= i < len specs ->
  MaterializeKey (writeKeys (map keyOf specs)) dst i
  = dst ++ nth (Z.to_nat i) (map keyOf specs) [].
Proof.
  intros Hvalid Hi.
  destruct (writeKeys_columns specs Hvalid) as (Hrk & Huv & _ & Hrows).
  assert (Hi' : (Z.to_nat i < length specs)%nat) by (unfold len in Hi; lia).
  destruct (Hrows _ Hi') as [Hw Hl].
  assert (Hvi : validMVCC (nth (Z.to_nat i) specs ([], 0, 0))).
  { eapply Forall_forall; [exact Hvalid|]. apply nth_In. exact Hi'. }
  unfold MaterializeKey, PrefixBytesBuilder.UnsafeGet,
    RawBytesBuilder.UnsafeGet, UintBuilder.Get.
  rewrite Hrk, Huv, Hw, Hl.
  rewrite !(nth_map_lt _ specs (Z.to_nat i) ([], 0, 0)) by exact Hi'.
  destruct (nth (Z.to_nat i) specs ([], 0, 0)) as [[p w] l] eqn:Hspec.
  cbn [fst snd keyOf len length Z.of_nat Z.ltb Z.compare].
  destruct Hvi as (_ & _ & Hlr).
  rewrite uint32_small by exact Hlr.
  rewrite <- app_assoc, AppendTimestamp_app. reflexivity.
Qed.

Lemma MaterializeKey_returns_written_key_witness :
  MaterializeKey (writeKeys (map keyOf specs3)) [] 1
  = [107; 0; 0; 0; 0; 0; 0; 0; 0; 100; 0; 0; 0; 5; 13].
Proof.
  rewrite (MaterializeKey_returns_written_key specs3 [] 1).
  - reflexivity.
  - repeat constructor; try discriminate; vm_compute; congruence.
  - vm_compute. split; [discriminate|reflexivity].
Defined.

Lemma nth_padUints (rows i : nat) (u : list Z) :
  nth i (padUints rows u) 0 = nth i u 0.
Proof.
  unfold padUints.
  destruct (Nat.lt_ge_cases i (length u)) as [Hlt|Hge].
  - apply app_nth1. exact Hlt.
  - rewrite app_nth2 by exact Hge.
    rewrite (nth_overflow u) by exact Hge.
    apply nth_repeat.
Qed.

(** X11.  Round trip through a finished block, for rows without logical
    counter: after a sequence of MVCC and bare-prefix keys was written and
    the block finished, [MaterializeUserKey] on a seeker bound to the block
    returns the [i]-th key byte for byte, provided that key has no logical
    counter and the buffer has room for the prefix and 10 more bytes. *)
Theorem MaterializeUserKey_returns_written_key
    (specs : list (Bytes * Z * Z)) (prevRow i : Z) (m : Mem) :
  Forall validMVCC specs ->
  0 <= i < len specs ->
  snd (nth (Z.to_nat i) specs ([], 0, 0)) = 0 ->
  iterReady m prevRow i ->
  len (fst (fst (nth (Z.to_nat i) specs ([], 0, 0)))) + 10 <= capacity m ->
  fst (MaterializeUserKey (seekerOf (map keyOf specs)) prevRow i m)
  = Done (nth (Z.to_nat i) (map keyOf specs) []).
Proof.
  intros Hvalid Hi Hlog Hready Hfit.
  destruct (writeKeys_columns specs Hvalid) as (Hrk & Huv & _ & Hrows).
  assert (Hi' : (Z.to_nat i < length specs)%nat) by (unfold len in Hi; lia).
  destruct (Hrows _ Hi') as [Hw Hl].
  assert (Hvi : validMVCC (nth (Z.to_nat i) specs ([], 0, 0))).
  { eapply Forall_forall; [exact Hvalid|]. apply nth_In. exact Hi'. }
  set (ks := seekerOf (map keyOf specs)).
  assert (Kp : PrefixBytes.At (ks_roachKeys ks) i
               = fst (fst (nth (Z.to_nat i) specs ([], 0, 0)))).
  { unfold ks, seekerOf, Init, finishBlock, PrefixBytes.At.
    cbn [ks_roachKeys r_roachKeys]. rewrite Hrk.
    rewrite (nth_map_lt _ specs (Z.to_nat i) ([], 0, 0)) by exact Hi'.
    reflexivity. }
  assert (Kw : UnsafeUints.At (ks_mvccWallTimes ks) i
               = snd (fst (nth (Z.to_nat i) specs ([], 0, 0)))).
  { unfold ks, seekerOf, Init, finishBlock, UnsafeUints.At.
    cbn [ks_mvccWallTimes r_wallTimes]. rewrite nth_padUints. exact Hw. }
  assert (Kl : UnsafeUints.At (ks_mvccLogical ks) i = 0).
  { unfold ks, seekerOf, Init, finishBlock, UnsafeUints.At.
    cbn [ks_mvccLogical r_logicalTimes]. rewrite nth_padUints, Hl. exact Hlog. }
  assert (Ku : RawBytes.At (ks_untypedVersions ks) i = []).
  { unfold ks, seekerOf, Init, finishBlock, RawBytes.At.
    cbn [ks_untypedVersions r_untypedVersions]. rewrite Huv.
    rewrite (nth_map_lt _ specs (Z.to_nat i) ([], 0, 0)) by exact Hi'.
    reflexivity. }
  rewrite (nth_map_lt keyOf specs (Z.to_nat i) ([], 0, 0)) by exact Hi'.
  destruct (nth (Z.to_nat i) specs ([], 0, 0)) as [[p w] l].
  cbn [fst snd keyOf] in *. subst l.
  destruct Hvi as (_ & Hwr & _).
  rewrite mvccKey_shape. cbn [Z.eqb]. rewrite andb_true_r.
  pose proof (len_nonneg p) as Hlp.
  destruct (Z.eqb_spec w 0) as [Hw0|Hw0].
  - destruct (untyped_path_run ks prevRow i m Hready) as (m' & Hrun & _).
    + rewrite Kw. exact Hw0.
    + rewrite Kl. reflexivity.
    + rewrite Kp, Ku. cbn [len length Z.of_nat]. lia.
    + rewrite Hrun, Kp, Ku. reflexivity.
  - destruct (positioned_prefix ks prevRow i m Hready
                ltac:(rewrite Kp; lia)) as [Hlen Hback].
    pose proof (MaterializeUserKey_mvcc_layout ks prevRow i m) as Hout.
    cbv zeta in Hout. unfold mvccSuffixLen in Hout.
    rewrite Kw, Kl, Hlen, Hback, Kp in Hout.
    change (uint32 0) with 0 in Hout. cbn [Z.eqb] in Hout.
    rewrite andb_true_r in Hout.
    apply Z.eqb_neq in Hw0. specialize (Hout Hw0 Hfit).
    unfold len in Hout.
    rewrite Nat2Z.id, firstn_app, Nat.sub_diag, firstn_all in Hout.
    cbn [firstn] in Hout. rewrite app_nil_r in Hout.
    exact Hout.
Qed.

Lemma MaterializeUserKey_returns_written_key_witness :
  fst (MaterializeUserKey (seekerOf (map keyOf specs3)) (-1) 0 (freshMem 16))
  = Done [107; 0; 0; 0; 0; 0; 0; 0; 0; 200; 9].
Proof.
  rewrite (MaterializeUserKey_returns_written_key specs3 (-1) 0 (freshMem 16)).
  - reflexivity.
  - repeat constructor; try discriminate; vm_compute; congruence.
  - vm_compute. split; [discriminate|reflexivity].
  - reflexivity.
  - intros _ _. reflexivity.
  - vm_compute. discriminate.
Defined.

(** ** Reset *)

Lemma addKey_ignores_prevSuffix (kw1 kw2 : cockroachKeyWriter) (key : Bytes) :
  kw_roachKeys kw1 = kw_roachKeys kw2 ->
  kw_wallTimes kw1 = kw_wallTimes kw2 ->
  kw_logicalTimes kw1 = kw_logicalTimes kw2 ->
  kw_untypedVersions kw1 = kw_untypedVersions kw2 ->
  PrefixBytesBuilder.Rows (kw_roachKeys kw1) = 0 ->
  addKey kw1 key = addKey kw2 key.
Proof.
  intros Hrk Hw Hl Hu Hrows.
  assert (Hcmp : ComparePrev kw1 key = ComparePrev kw2 key).
  { unfold ComparePrev. rewrite <- Hrk, Hrows. reflexivity. }
  unfold addKey, WriteKey. rewrite Hcmp, <- Hrk, <- Hw, <- Hl, <- Hu.
  destruct (crdbtest.DecodeEngineKey key) as [[[rk uv] w] l]. reflexivity.
Qed.

(** X12.  A writer that was reset behaves as a new one although it keeps the
    bytes of the previous suffix: [ComparePrev] answers as on a new writer,
    and writing any non-empty sequence of keys leads to the state a new
    writer reaches with them. *)
Theorem Reset_behaves_as_new_writer
    (kw : cockroachKeyWriter) (key : Bytes) (keys : list Bytes) :
  ComparePrev (Reset kw) key = ComparePrev NewKeyWriter key
  /\ (keys <> [] -> fold_left addKey keys (Reset kw) = writeKeys keys).
Proof.
  split; [reflexivity|].
  intros Hne. destruct keys as [|k keys]; [congruence|].
  unfold writeKeys. cbn [fold_left].
  rewrite (addKey_ignores_prevSuffix (Reset kw) NewKeyWriter k);
    reflexivity.
Qed.

Lemma Reset_behaves_as_new_writer_witness :
  fold_left addKey [key_k200; key_k100] (Reset (writeKeys [key_abc]))
  = writeKeys [key_k200; key_k100].
Proof.
  apply (Reset_behaves_as_new_writer (writeKeys [key_abc]) key_ab
           [key_k200; key_k100]).
  discriminate.
Defined.

(** ** Ranges of the comparison result *)

(** X13.  [ComparePrev] reports the split point of the key as [PrefixLen], a
    shared length between 0 and [PrefixLen], and a comparison in
    {-1, 0, +1}; it reports 0 only together with a wholly shared prefix
    ([CommonPrefixLen = PrefixLen]). *)
Theorem ComparePrev_result_ranges (kw : cockroachKeyWriter) (key : Bytes) :
  crdbtest.Split key < 2 ^ 31 ->
  PrefixLen (ComparePrev kw key) = crdbtest.Split key
  /\ 0 <= CommonPrefixLen (ComparePrev kw key) <= PrefixLen (ComparePrev kw key)
  /\ (UserKeyComparison (ComparePrev kw key) = -1
      \/ UserKeyComparison (ComparePrev kw key) = 0
      \/ UserKeyComparison (ComparePrev kw key) = 1)
  /\ (UserKeyComparison (ComparePrev kw key) = 0 ->
      CommonPrefixLen (ComparePrev kw key) = PrefixLen (ComparePrev kw key)).
Proof.
  intros Hsplit.
  pose proof (sentinelIndex_bounds key) as Hs.
  assert (Hpos : 1 <= crdbtest.Split key) by (unfold crdbtest.Split; lia).
  destruct (PrefixBytesBuilder.Rows (kw_roachKeys kw) =? 0) eqn:Hrows.
  - assert (Hp : int32 (crdbtest.Split key) = crdbtest.Split key).
    { apply int32_small. change (2 ^ 31) with 2147483648 in *. lia. }
    unfold ComparePrev. rewrite Hrows. cbn [PrefixLen CommonPrefixLen UserKeyComparison].
    rewrite Hp. repeat split; lia.
  - rewrite (ComparePrev_cases kw key Hrows Hsplit). cbv zeta.
    set (lp := PrefixBytesBuilder.UnsafeGet (kw_roachKeys kw)
                 (PrefixBytesBuilder.Rows (kw_roachKeys kw) - 1)).
    destruct (CommonPrefix_Compare lp (prefixOf key)) as (B1 & B2 & _ & _ & _ & D).
    pose proof (len_prefixOf key) as Hl.
    set (c := crbytes.CommonPrefix lp (prefixOf key)) in *.
    destruct (Z.eqb_spec c (len (prefixOf key))) as [Hc|Hc].
    + cbn [PrefixLen CommonPrefixLen UserKeyComparison].
      repeat split; try lia. all: apply CompareSuffixes_range.
    + destruct (Z.eqb_spec (len lp) c) as [Hlc|Hlc];
        cbn [PrefixLen CommonPrefixLen UserKeyComparison].
      * repeat split; lia.
      * split; [reflexivity|]. split; [lia|].
        split; [apply cmp_Compare_range|].
        intros Hzero. exfalso.
        destruct D as [D1 D2]; [lia|lia|].
        apply D2. rewrite D1.
        assert (Hi : index (prefixOf key) c = index key c)
          by (unfold prefixOf; apply index_slice; lia).
        rewrite Hi. exact Hzero.
Qed.

Lemma ComparePrev_result_ranges_witness :
  PrefixLen (ComparePrev kw_abc key_abd) = 4
  /\ 0 <= CommonPrefixLen (ComparePrev kw_abc key_abd)
          <= PrefixLen (ComparePrev kw_abc key_abd).
Proof.
  destruct (ComparePrev_result_ranges kw_abc key_abd) as (H1 & H2 & _).
  - vm_compute. reflexivity.
  - split; [exact H1|exact H2].
Defined.

(** ** IsLowerBound with a synthetic suffix or without invariants *)



(** ** Seeking a key without suffix *)

(** X15.  For a key that ends with the sentinel (no suffix region),
    [SeekGE] returns the row and the equality flag of the prefix search as
    they are: neither the suffix columns nor the reader are consulted, so it
    answers even on a seeker that is not bound to a block. *)
Theorem SeekGE_without_suffix
    (ks : cockroachKeySeeker) (p : Bytes) (boundRow searchDir : Z) :
  Forall (fun b => b <> 0) p ->
  SeekGE ks (p ++ [0]) boundRow searchDir
  = Some (PrefixBytes.Search (ks_roachKeys ks) p).
Proof.
  intros Hp.
  destruct (split_prefixed_key p [] Hp) as [Hpre Hsuf].
  cbn [app] in Hpre, Hsuf. unfold prefixOf in Hpre.
  unfold SeekGE. unfold Bytes, byte in *.
  rewrite Hpre, Hsuf.
  destruct (PrefixBytes.Search (ks_roachKeys ks) p) as [row eq].
  destruct eq; reflexivity.
Qed.

Lemma SeekGE_without_suffix_witness :
  SeekGE ks_k3 [107; 0] 0 0 = Some (0, true).
Proof.
  transitivity (Some (PrefixBytes.Search (ks_roachKeys ks_k3) [107])).
  - apply (SeekGE_without_suffix ks_k3 [107] 0 0).
    repeat constructor. discriminate.
  - reflexivity.
Defined.
